(** * build_blogs.py: a verification development

    The script walks a catalog of connectors; for each one it asks a chat
    model for an example configuration, asks it for five chapters while
    feeding the earlier answers back, glues the chapters and two fixed
    calls to action together, writes the post to [./blogs/] and posts it to
    the Webflow CMS.

    Python strings are modelled by [string], read as the UTF-8 bytes of the
    text: every pattern the script searches for is plain ASCII, and an ASCII
    byte never occurs inside a multi-byte UTF-8 sequence, so replacing on
    the bytes and replacing on the code points agree.  Dictionaries used as
    maps are [gmap]s, the [OrderedDict] of prompts is the list of its items.
    Everything outside the script (the model, the connector registry, the
    CMS, the file system, the [.env] file) is an interface, [Externals],
    whose answers may depend on a state of its own. *)

From Stdlib Require Import ZArith Ascii DecimalString.
From stdpp Require Import base option list gmap strings.

Local Open Scope Z_scope.

(** ** Python strings *)

Module PyStr.

Definition LF : string := String "010" "".
Definition CRLF : string := String "013" (String "010" "").
Definition DQ : string := String "034" "".
(** U+2019, the typographic apostrophe of the prompts, in UTF-8. *)
Definition RSQUO : string := String "226" (String "128" (String "153" "")).
Definition BACKTICK : ascii := "096"%char.

(** The pieces of an f-string, joined. *)
Definition fstr (pieces : list string) : string :=
  foldr String.append "" pieces.

(** [s.startswith(prefix)] *)
Fixpoint startswith (s prefix : string) : bool :=
  match prefix with
  | "" => true
  | String p prefix' =>
      match s with
      | "" => false
      | String c s' => bool_decide (c = p) && startswith s' prefix'
      end
  end.

(** [sub in s] *)
Fixpoint contains (s sub : string) : bool :=
  startswith s sub ||
  match s with
  | "" => false
  | String _ s' => contains s' sub
  end.

(** The scan of [str.replace] for a pattern that is not empty: left to
    right, a match is replaced and the scan resumes behind it.  [skip]
    counts the characters of the current match still to be passed. *)
Fixpoint replace_scan (old new : string) (skip : nat) (s : string) : string :=
  match s with
  | "" => ""
  | String c s' =>
      match skip with
      | S k => replace_scan old new k s'
      | O =>
          if startswith s old
          then new +:+ replace_scan old new (Nat.pred (String.length old)) s'
          else String c (replace_scan old new O s')
      end
  end.

(** With an empty pattern Python puts [new] around every character. *)
Fixpoint replace_empty (new s : string) : string :=
  match s with
  | "" => new
  | String c s' => new +:+ String c (replace_empty new s')
  end.

(** [s.replace(old, new)] *)
Definition replace (s old new : string) : string :=
  match old with
  | "" => replace_empty new s
  | String _ _ => replace_scan old new O s
  end.

(** [str(n)] for an integer. *)
Definition str_of_int (n : Z) : string :=
  NilEmpty.string_of_int (Z.to_int n).

(** [sub] occurs in [s] as a contiguous substring. *)
Definition occurs_in (sub s : string) : Prop :=
  ∃ before after, s = before +:+ sub +:+ after.

(** The character [c] occurs in [s]. *)
Fixpoint has_char (c : ascii) (s : string) : bool :=
  match s with
  | "" => false
  | String d s' => bool_decide (d = c) || has_char c s'
  end.

(** How often the character [c] occurs in [s]. *)
Fixpoint count_char (c : ascii) (s : string) : nat :=
  match s with
  | "" => O
  | String d s' => (if bool_decide (d = c) then 1 else 0)%nat + count_char c s'
  end.

End PyStr.

Import PyStr.

(** ** Data *)

(** An entry of the catalog [sources]: a dictionary with the display name
    under ['original'] and the canonical identifier under ['formatted']. *)
Record connector := Connector {
  original : string;
  formatted : string;
}.

(** A chat message; the content the model returns is a [str] or [None]. *)
Record message := Message {
  role : string;
  content : option string;
}.

(** What the script reads of a [requests] response. *)
Record response := Response {
  status_code : Z;
  text : string;
}.

(** The JSON body posted to the CMS. *)
Record item := Item {
  isArchived : bool;
  isDraft : bool;
  fieldData : gmap string string;
}.

(** The exceptions that can end the script. *)
Inductive exn : Type :=
| KeyError (key : string)
| TypeError
| AttributeError
| LibraryError (origin : string).

Inductive result (A : Type) : Type :=
| Ok (a : A)
| Raise (e : exn).
Arguments Ok {A} a.
Arguments Raise {A} e.

(** What the script does to the outside, in the order it does it. *)
Inductive event : Type :=
| GetSource (name : string)
| ChatCreate (model : string) (messages : list message)
| OpenW (filename : string)
| HttpPost (url : string) (json : item) (headers : gmap string string)
| Print (line : string).

(** The libraries and services the script calls.  Each call may change the
    state [ES] of the outside and may raise. *)
Class Externals (ES : Type) := {
  (** [ab.get_source(name).config_spec], as the f-string renders it *)
  get_source_config_spec : string → ES → result string * ES;
  (** [client.chat.completions.create(...).choices[0].message.content] *)
  chat_completions_create :
    string → list message → ES → result (option string) * ES;
  (** [requests.post(url, json=..., headers=...)] *)
  requests_post :
    string → item → gmap string string → ES → result response * ES;
  (** [open(filename, "w", encoding="utf-8")] *)
  open_for_writing : string → ES → result unit * ES;
  (** the variables of the [.env] file *)
  dotenv_file : ES → gmap string string;
  (** [openai.OpenAI(api_key=...)] *)
  OpenAI_client : option string → ES → result unit * ES;
}.

(** The store: the outside, the process environment, the files, the two
    objects [conversation_history] and [blog_chapters] that [__main__] binds
    and [build_blog_post] updates in place, and the log of events. *)
Record world (ES : Type) := World {
  external : ES;
  environ : gmap string string;
  files : gmap string string;
  conversation_history : list message;
  blog_chapters : gmap string (option string);
  log : list event;
}.
Arguments World {ES}.
Arguments external {ES}.
Arguments environ {ES}.
Arguments files {ES}.
Arguments conversation_history {ES}.
Arguments blog_chapters {ES}.
Arguments log {ES}.

Definition set_external {ES} (e : ES) (w : world ES) : world ES :=
  World e (environ w) (files w) (conversation_history w) (blog_chapters w) (log w).
Definition set_environ {ES} (v : gmap string string) (w : world ES) : world ES :=
  World (external w) v (files w) (conversation_history w) (blog_chapters w) (log w).
Definition set_files {ES} (f : gmap string string) (w : world ES) : world ES :=
  World (external w) (environ w) f (conversation_history w) (blog_chapters w) (log w).
Definition set_conversation_history {ES} (h : list message) (w : world ES)
  : world ES :=
  World (external w) (environ w) (files w) h (blog_chapters w) (log w).
Definition set_blog_chapters {ES} (c : gmap string (option string))
  (w : world ES) : world ES :=
  World (external w) (environ w) (files w) (conversation_history w) c (log w).
Definition set_log {ES} (l : list event) (w : world ES) : world ES :=
  World (external w) (environ w) (files w) (conversation_history w)
    (blog_chapters w) l.

(** ** The monad of the script: state and exceptions *)

Definition M (ES A : Type) : Type := world ES → result A * world ES.

Definition ret {ES A} (a : A) : M ES A := λ w, (Ok a, w).

Definition raise {ES A} (e : exn) : M ES A := λ w, (Raise e, w).

Definition bind {ES A B} (m : M ES A) (k : A → M ES B) : M ES B :=
  λ w, match m w with
       | (Ok a, w') => k a w'
       | (Raise e, w') => (Raise e, w')
       end.

Declare Scope py_scope.
Delimit Scope py_scope with py.
Notation "x <- m ;; k" := (bind m (λ x, k))
  (at level 100, m at next level, right associativity) : py_scope.
Notation "m ;; k" := (bind m (λ _, k))
  (at level 100, right associativity) : py_scope.
Local Open Scope py_scope.

Definition gets {ES A} (f : world ES → A) : M ES A := λ w, (Ok (f w), w).

Definition modify {ES} (f : world ES → world ES) : M ES unit :=
  λ w, (Ok tt, f w).

(** [for x in xs: body(x)] *)
Fixpoint for_each {ES A} (xs : list A) (body : A → M ES unit) : M ES unit :=
  match xs with
  | [] => ret tt
  | x :: xs' => body x ;; for_each xs' body
  end.

(** [d[key]] on a dictionary. *)
Definition getitem {ES V} (d : gmap string V) (key : string) : M ES V :=
  match d !! key with
  | Some v => ret v
  | None => raise (KeyError key)
  end.

(** [x + y] where each operand is a [str] or [None]. *)
Definition add {ES} (x y : option string) : M ES string :=
  match x, y with
  | Some a, Some b => ret (a +:+ b)
  | _, _ => raise TypeError
  end.

(** ** The script *)

(** The separator of the sections of a post, ["\n\n"]: it ends the line
    and leaves one line blank. *)
Definition blank_line : string := LF +:+ LF.

(** The marker of a code fence. *)
Definition fence : string := "```".

(** The cleanup of the model's answer (line 17):
    [content.replace("json", "").replace("```", "")]. *)
Definition clean_config (content : string) : string :=
  replace (replace content "json" "") "```" "".

(** The four constant stretches of the snippet template (lines 19-44). *)
Definition snippet_head : string := fstr
  ["pip install airbyte"; LF; LF; "            import airbyte as ab"; LF; LF;
   "            # Create and configure the source connector, don't ";
   "forget to use your own values in the config:"; LF;
   "            source = ab.get_source("; LF; "                "].

Definition snippet_before_config : string := fstr
  [","; LF; "                install_if_missing=True,"; LF;
   "                config="].

Definition snippet_after_config : string := fstr
  [LF; "            )"; LF; LF;
   "            # Verify the config and credentials:"; LF;
   "            source.check()"; LF; LF;
   "            # List the available streams available for the "].

Definition snippet_tail : string := fstr
  [" connector:"; LF; "            source.get_available_streams()"; LF; LF;
   "            # Select all streams to load to cache. You can also ";
   "select some of them with the `select_streams()` method."; LF;
   "            source.select_all_streams()"; LF; LF;
   "            # Read into DuckDB local default cache. You could ";
   "also use a custom cache here (Postgres, Snowflake, BigQuery, "; "etc.)";
   LF; "            cache = ab.get_default_cache()"; LF;
   "            result = source.read(cache=cache)"; LF; LF;
   "            # Read a stream from the cache into a pandas ";
   "Dataframe, replace with the stream you're interested in. You ";
   "can also read from the cache into SQL, or documents (for LLMs)."; LF;
   "            df = cache["; DQ; "your_stream"; DQ; "].to_pandas()"].

(** The f-string [snippet] (lines 19-44). *)
Definition code_snippet (connector config : string) : string := fstr
  [snippet_head; connector; snippet_before_config; config;
   snippet_after_config; connector; snippet_tail].

Definition model_name : string := "gpt-4-turbo-preview".

Definition config_prompt (config_spec : string) : string := fstr
  ["Generate an example configuration based on the following JSON ";
   "spec. Provide only the configuration, without explanations: ";
   config_spec].

Definition chapter_system_prompt : string := fstr
  ["You are a helpful assistant. Use clear, precise language, and limit ";
   "pompous words. Use a natural tone. Prioritize substance"].

(** The messages of one chapter request (line 52). *)
Definition chapter_messages (prompt : string) (chat_history : list message)
  : list message :=
  [Message "system" (Some chapter_system_prompt)]
    ++ chat_history ++ [Message "user" (Some prompt)].

(** The entry appended to the history (line 60). *)
Definition assistant_turn (text : option string) : message :=
  Message "assistant" text.

(** The requests the loop of [build_blog_post] sends when the model answers
    [texts]: each one carries the history with the answers before it, and
    the loop stops behind the first request left without an answer. *)
Fixpoint requests_of (history : list message)
  (prompts : list (string * string)) (texts : list (option string))
  : list (list message) :=
  match prompts with
  | [] => []
  | (_, prompt) :: prompts' =>
      chapter_messages prompt history ::
      match texts with
      | [] => []
      | t :: texts' =>
          requests_of (history ++ [assistant_turn t]) prompts' texts'
      end
  end.

(** The assignments [blog_chapters[chapter] = text] of line 59, in turn. *)
Definition record_texts (chapters : gmap string (option string))
  (prompts : list (string * string)) (texts : list (option string))
  : gmap string (option string) :=
  foldl (λ m kt, <[kt.1 := kt.2]> m) chapters (zip (prompts.*1) texts).

Definition filename_of (source_connector : connector) : string :=
  fstr ["./blogs/"; formatted source_connector; ".md"].

Definition collection_id : string := "66200272dd44bc109a1d8cff".

Definition api_url : string :=
  fstr ["https://api.webflow.com/v2/collections/"; collection_id; "/items"].

(** [f"Bearer {webflow_api_token}"]; a missing variable prints as [None]. *)
Definition bearer (webflow_api_token : option string) : string :=
  fstr ["Bearer "; default "None" webflow_api_token].

Definition headers_of (webflow_api_token : option string)
  : gmap string string :=
  <["Authorization" := bearer webflow_api_token]>
    (<["accept" := "application/json"]>
       (<["content-type" := "application/json"]> ∅)).

Definition post_title (source_connector : connector) : string :=
  fstr ["How To Create a "; original source_connector;
        " Python Pipeline with PyAirbyte"].

Definition slug_of (source_connector : connector) : string :=
  fstr [replace (formatted source_connector) "source-" ""; "-python"].

Definition seo_meta_description (source_connector : connector) : string :=
  fstr ["Learn how to create a "; original source_connector;
   " Python data pipeline with our easy step-by-step guide. Master ";
   "the setup using PyAirbyte to efficiently manage your ";
   original source_connector; " data."].

(** [blog_post_data] (lines 87-101). *)
Definition blog_post_data (source_connector : connector)
  (blog_post_body : string) : item :=
  {| isArchived := false;
     isDraft := true;
     fieldData :=
       <["name" := post_title source_connector]>
       (<["slug" := slug_of source_connector]>
       (<["seo-title-tag" := post_title source_connector]>
       (<["seo-meta-description" := seo_meta_description source_connector]>
       (<["publish-date" := "2024-04-24T12:00:00.000Z"]>
       (<["time-to-read" := "10 min read"]>
       (<["post-body" := blog_post_body]> ∅)))))) |}.

Definition upload_success_line (source_connector : connector) : string :=
  fstr ["Blog post successfully uploaded for "; original source_connector; "!"].

Definition upload_failure_line (source_connector : connector)
  (r : response) : string :=
  fstr ["Failed to upload blog post "; original source_connector;
        ". Status code: "; str_of_int (status_code r); ", Response: ";
        text r].

Definition ctas : gmap string string :=
  <["docs_quickstarts_cta" := fstr
     ["For keeping up with the latest PyAirbyte"; RSQUO;
      "s features, make sure to check [our ";
      "documentation](https://docs.airbyte.com/using-airbyte/pyairbyte/";
      "getting-started). And if you"; RSQUO;
      "re eager to see more code examples with PyAirbyte, check out ";
      "our [Quickstarts ";
      "library](https://github.com/airbytehq/quickstarts/tree/main/pyai";
      "rbyte_notebooks)."]]>
  (<["slack_newsletter_cta" := fstr
     ["Do you have any questions or feedback for us? You can keep in ";
      "touch by joining our [Slack ";
      "channel](https://airbyte.com/community/community)! If you want ";
      "to keep up to date with new PyAirbyte features, [subscribe to ";
      "our newsletter](https://airbyte.com/community/newsletter)."]]> ∅).

(** The items of the [OrderedDict] of prompts (lines 139-145), with the
    snippet that [create_code_example] returned. *)
Definition chapter_prompts (source : connector) (snippet : string)
  : list (string * string) :=
  [("chapter_1", fstr
     ["I"; RSQUO; "m writing a guide and I need your help to write some of the ";
      "chapters."; CRLF; CRLF;
      "The guide focuses on the challenges of creating custom Python ";
      "scripts for creating data pipelines from "; original source;
      " and how PyAirbyte simplifies this process. "; CRLF; CRLF;
      "[PyAirbyte] (https://airbyte.com/product/pyairbyte) is an ";
      "open-source Python library that packages Airbyte connectors and ";
      "makes them available as code, while removing the need for ";
      "hosted services or an Airbyte Cloud account."; CRLF; CRLF;
      "Please help me write the following chapter. Don"; RSQUO;
      "t include an introduction and conclusion:"; CRLF; CRLF;
      "Title: Traditional Methods for Creating "; original source;
      " Data Pipelines"; CRLF; "Cover the following:"; CRLF;
      "Outline conventional methods, like custom Python scripts."; CRLF;
      "Describe specific pain points in extracting data from ";
      original source; "."; CRLF;
      "Explain the impact of these challenges on data pipeline ";
      "efficiency and maintenance."; CRLF]);
   ("chapter_2", fstr
     ["Let"; RSQUO; "s continue with the next chapter. Don"; RSQUO;
      "t include an introduction and conclusion:"; CRLF; CRLF;
      "Title: Implementing a Python Data Pipeline for "; original source;
      " with PyAirbyte"; CRLF;
      "Include the following Python code snippets and explain what"; RSQUO;
      "s happening in each section:"; CRLF;
      snippet; CRLF]);
   ("chapter_3", fstr
     ["Let"; RSQUO; "s continue with the next chapter. Don"; RSQUO;
      "t include an introduction and conclusion:"; CRLF; CRLF;
      "Title: Why Using PyAirbyte for "; original source;
      " Data Pipelines:"; CRLF; "Cover the following:"; CRLF;
      "PyAirbyte can be installed with pip, and the only requirement ";
      "is to have Python installed."; CRLF;
      "You can easily get and configure the available source ";
      "connectors. It"; RSQUO;
      "s also possible to install custom source connectors."; CRLF;
      "By enabling the selection of specific data streams, PyAirbyte ";
      "conserves computing resources and streamlines data processing."; CRLF;
      "With support for multiple caching backends like DuckDB, ";
      "MotherDuck, Postgres, Snowflake and BigQuery, PyAirbyte offers ";
      "flexibility. If users don"; RSQUO;
      "t define a specific Cache, DuckDB is used as the default cache."; CRLF;
      "PyAirbyte is able to read data incrementally. This feature is ";
      "key for efficiently handling large datasets and reducing the ";
      "load on data sources."; CRLF;
      "PyAirbyte is compatible with various Python libraries, like ";
      "Pandas and SQL-based tools, which opens up a wide range of ";
      "possibilities for data transformation, analysis, integration ";
      "into existing Python-based data workflows, orchestrators and AI ";
      "frameworks."; CRLF;
      "PyAirbyte is ideally suited for enabling AI applications."; CRLF]);
   ("conclusion", fstr
     ["Let"; RSQUO; "s write a very short conclusion chapter for this guide."]);
   ("introduction", fstr
     ["Let"; RSQUO;
      "s write a very short introduction, highlighting some of the ";
      "challenges and how PyAirbyte could reduce them."])].

Section Script.

Context {ES : Type} `{!Externals ES}.

(** An effect on the outside is logged, then performed. *)
Definition emit (e : event) : M ES unit :=
  modify (λ w, set_log (log w ++ [e]) w).

Definition call {A} (f : ES → result A * ES) : M ES A :=
  λ w, let (r, e') := f (external w) in (r, set_external e' w).

Definition print (line : string) : M ES unit := emit (Print line).

(** [os.getenv(name)] *)
Definition os_getenv (name : string) : M ES (option string) :=
  gets (λ w, environ w !! name).

(** [load_dotenv()]: variables already set are kept. *)
Definition load_dotenv : M ES unit :=
  modify (λ w, set_environ (environ w ∪ dotenv_file (external w)) w).

(** Lines 10-46. *)
Definition create_code_example (connector : string) : M ES string :=
  emit (GetSource connector) ;;
  config_spec <- call (get_source_config_spec connector) ;;
  let prompt := config_prompt config_spec in
  let messages :=
    [Message "system" (Some "You are a helpful assistant.");
     Message "user" (Some prompt)] in
  emit (ChatCreate model_name messages) ;;
  content <- call (chat_completions_create model_name messages) ;;
  config <- match content with
            | Some c => ret (clean_config c)
            | None => raise AttributeError
            end ;;
  ret (code_snippet connector config).

(** Lines 49-54. *)
Definition generate_blog_chapter (prompt : string)
  (chat_history : list message) : M ES (option string) :=
  let messages := chapter_messages prompt chat_history in
  emit (ChatCreate model_name messages) ;;
  call (chat_completions_create model_name messages).

(** The body of the loop of [build_blog_post] (lines 59-60). *)
Definition generate_and_record (item : string * string) : M ES unit :=
  let '(chapter, prompt) := item in
  history <- gets conversation_history ;;
  text <- generate_blog_chapter prompt history ;;
  modify (λ w, set_blog_chapters (<[chapter := text]> (blog_chapters w)) w) ;;
  chapters <- gets blog_chapters ;;
  stored <- getitem chapters chapter ;;
  modify (λ w, set_conversation_history
                 (conversation_history w ++ [assistant_turn stored]) w).

(** The concatenation of lines 62-68, evaluated left to right. *)
Definition assemble (chapters : gmap string (option string))
  (ctas : gmap string string) : M ES string :=
  x <- getitem chapters "introduction" ;;
  acc <- add x (Some blank_line) ;;
  x <- getitem chapters "chapter_1" ;;
  acc <- add (Some acc) x ;;
  acc <- add (Some acc) (Some blank_line) ;;
  x <- getitem chapters "chapter_2" ;;
  acc <- add (Some acc) x ;;
  acc <- add (Some acc) (Some blank_line) ;;
  x <- getitem ctas "docs_quickstarts_cta" ;;
  acc <- add (Some acc) (Some x) ;;
  acc <- add (Some acc) (Some blank_line) ;;
  x <- getitem chapters "chapter_3" ;;
  acc <- add (Some acc) x ;;
  acc <- add (Some acc) (Some blank_line) ;;
  x <- getitem chapters "conclusion" ;;
  acc <- add (Some acc) x ;;
  acc <- add (Some acc) (Some blank_line) ;;
  x <- getitem ctas "slack_newsletter_cta" ;;
  add (Some acc) (Some x).

(** Lines 56-70.  The arguments [conversation_history] and
    [blog_chapters] are the two objects of the store. *)
Definition build_blog_post (chapter_prompts : list (string * string))
  (ctas : gmap string string) : M ES string :=
  for_each chapter_prompts generate_and_record ;;
  chapters <- gets blog_chapters ;;
  assemble chapters ctas.

(** Lines 72-110. *)
Definition upload_post_to_webflow (source_connector : connector)
  (blog_post_body : string) : M ES unit :=
  webflow_api_token <- os_getenv "WEBFLOW_API_TOKEN" ;;
  let headers := headers_of webflow_api_token in
  let data := blog_post_data source_connector blog_post_body in
  emit (HttpPost api_url data headers) ;;
  response <- call (requests_post api_url data headers) ;;
  if bool_decide (status_code response ∈ [200; 201; 202])
  then print (upload_success_line source_connector)
  else print (upload_failure_line source_connector response).

(** Lines 112-120.  Opening with mode ["w"] empties the file; the write
    then lands behind what the file holds. *)
Definition download_post (source_connector : connector)
  (blog_post_body : string) : M ES unit :=
  let filename := filename_of source_connector in
  emit (OpenW filename) ;;
  call (open_for_writing filename) ;;
  modify (λ w, set_files (<[filename := ""]> (files w)) w) ;;
  modify (λ w, set_files
    (<[filename := default "" (files w !! filename) +:+ blog_post_body]>
       (files w)) w) ;;
  print (fstr ["File saved as "; filename; "!"]).

(** The body of the loop over the catalog up to the local copy
    (lines 138-157): the prompts, two fresh objects, the post, the file. *)
Definition produce_post (source : connector) : M ES string :=
  snippet <- create_code_example (formatted source) ;;
  let prompts := chapter_prompts source snippet in
  modify (set_conversation_history []) ;;
  modify (set_blog_chapters ∅) ;;
  blog_post <- build_blog_post prompts ctas ;;
  download_post source blog_post ;;
  ret blog_post.

(** The whole body of the loop (lines 138-160). *)
Definition process_source (source : connector) : M ES unit :=
  blog_post <- produce_post source ;;
  upload_post_to_webflow source blog_post.

(** Lines 123-160, for the catalog [sources] of the module [sources]. *)
Definition main (sources : list connector) : M ES unit :=
  load_dotenv ;;
  api_key <- os_getenv "OPENAI_KEY" ;;
  call (OpenAI_client api_key) ;;
  for_each sources process_source.

End Script.

(** ** A scripted outside, to run the script on

    The model answers the n-th request with the n-th entry of [answers],
    or with ["reply-n"] when there is none, and raises on a prompt that
    contains [broken]; the CMS answers 401 to a request whose bearer token
    is the text [None] and 201 otherwise; the client constructor refuses a
    missing key; files open, connectors resolve. *)

Record scripted := Scripted {
  chat_calls : nat;
  env_file : gmap string string;
  broken : option string;
  answers : list string;
}.

Definition last_content (messages : list message) : string :=
  match last messages with
  | Some m => default "" (content m)
  | None => ""
  end.

Definition scripted_chat (model : string) (messages : list message)
  (s : scripted) : result (option string) * scripted :=
  let s' := Scripted (S (chat_calls s)) (env_file s) (broken s) (answers s) in
  let answer :=
    default ("reply-" +:+ str_of_int (Z.of_nat (chat_calls s)))
            (answers s !! chat_calls s) in
  match broken s with
  | Some marker =>
      if contains (last_content messages) marker
      then (Raise (LibraryError "openai"), s')
      else (Ok (Some answer), s')
  | None => (Ok (Some answer), s')
  end.

Definition scripted_post (url : string) (json : item)
  (headers : gmap string string) (s : scripted) : result response * scripted :=
  if bool_decide (headers !! "Authorization" = Some "Bearer None")
  then (Ok (Response 401 "Unauthorized"), s)
  else (Ok (Response 201 "Created"), s).

#[export] Instance scripted_externals : Externals scripted := {|
  get_source_config_spec := λ _ s, (Ok "{'type': 'object'}", s);
  chat_completions_create := scripted_chat;
  requests_post := scripted_post;
  open_for_writing := λ _ s, (Ok tt, s);
  dotenv_file := env_file;
  OpenAI_client := λ key s,
    match key with
    | Some _ => (Ok tt, s)
    | None => (Raise (LibraryError "openai"), s)
    end;
|}.

(** The store at the start of the process. *)
Definition fresh {ES} (e : ES) : world ES := World e ∅ ∅ [] ∅ [].

Definition both_secrets : gmap string string :=
  <["OPENAI_KEY" := "sk-test"]> (<["WEBFLOW_API_TOKEN" := "wf-test"]> ∅).

Definition foo : connector := Connector "Foo" "source-foo".
Definition bar : connector := Connector "Bar" "source-bar".
Definition baz : connector := Connector "Baz" "source-baz".

(** The files opened for writing and the slugs posted, read off a log. *)
Definition opened_files (l : list event) : list string :=
  omap (λ e, match e with OpenW f => Some f | _ => None end) l.

Definition posted_slugs (l : list event) : list (option string) :=
  omap (λ e, match e with
             | HttpPost _ json _ => Some (fieldData json !! "slug")
             | _ => None
             end) l.

Definition posted_authorizations (l : list event) : list (option string) :=
  omap (λ e, match e with
             | HttpPost _ _ headers => Some (headers !! "Authorization")
             | _ => None
             end) l.

(** The message lists sent to the model, read off a log. *)
Definition chat_requests (l : list event) : list (list message) :=
  omap (λ e, match e with ChatCreate _ ms => Some ms | _ => None end) l.

Definition printed (l : list event) : list string :=
  omap (λ e, match e with Print line => Some line | _ => None end) l.

(** [w'] is a later store of the same process: the environment is the one
    of [w] and the log continues the log of [w]. *)
Definition extends {ES} (w w' : world ES) : Prop :=
  environ w' = environ w ∧ ∃ l, log w' = log w ++ l.

(** A computation that leaves the environment alone and only adds to the
    log. *)
Definition steady {ES A} (m : M ES A) : Prop := ∀ w, extends w (m w).2.

(** ** Notions for the run as a whole *)

(** The bodies posted, read off a log. *)
Definition posted_bodies (l : list event) : list (option string) :=
  omap (λ e, match e with
             | HttpPost _ json _ => Some (fieldData json !! "post-body")
             | _ => None
             end) l.

(** The body of the loop over the catalog up to the finished post
    (lines 138-154), before anything is published. *)
Definition generate_post {ES} `{!Externals ES} (source : connector)
  : M ES string :=
  snippet <- create_code_example (formatted source) ;;
  let prompts := chapter_prompts source snippet in
  modify (set_conversation_history []) ;;
  modify (set_blog_chapters ∅) ;;
  build_blog_post prompts ctas.

(** The events of the generation: a look at the registry, or a request to
    the one model that opens with a system message and ends with the
    prompt of the user. *)
Definition model_event (e : event) : Prop :=
  match e with
  | GetSource _ => True
  | ChatCreate model messages =>
      model = model_name
      ∧ role <$> head messages = Some "system"
      ∧ role <$> last messages = Some "user"
  | _ => False
  end.

(** The events of publishing the post of [source]: its file is opened, a
    line is printed, or a draft that is not archived goes to the one
    collection under the slug of [source]. *)
Definition publish_event (source : connector) (e : event) : Prop :=
  match e with
  | OpenW filename => filename = filename_of source
  | Print _ => True
  | HttpPost url json headers =>
      url = api_url
      ∧ isDraft json = true
      ∧ isArchived json = false
      ∧ fieldData json !! "slug" = Some (slug_of source)
      ∧ is_Some (headers !! "Authorization")
  | _ => False
  end.

(** A relation between a store and a later store that every step of the
    script respects, as long as the step only logs events that are
    [allowed] and only writes files that are [writable]. *)
Record Frame {ES} (R : world ES → world ES → Prop)
  (allowed : event → Prop) (writable : string → Prop) : Prop := {
  frame_refl : ∀ w, R w w;
  frame_trans : ∀ w1 w2 w3, R w1 w2 → R w2 w3 → R w1 w3;
  frame_external : ∀ w e, R w (set_external e w);
  frame_environ : ∀ w v, R w (set_environ v w);
  frame_history : ∀ w h, R w (set_conversation_history h w);
  frame_chapters : ∀ w c, R w (set_blog_chapters c w);
  frame_log : ∀ w e, allowed e → R w (set_log (log w ++ [e]) w);
  frame_files :
    ∀ w p v, writable p → R w (set_files (<[p := v]> (files w)) w);
}.

(** The computation [m] respects [R]. *)
Definition keeps {ES A} (R : world ES → world ES → Prop) (m : M ES A)
  : Prop :=
  ∀ w, R w (m w).2.

(** The log of [w'] is the log of [w] and then allowed events only. *)
Definition log_grows_by {ES} (allowed : event → Prop) (w w' : world ES)
  : Prop :=
  ∃ l, log w' = log w ++ l ∧ Forall allowed l.

(** The files of [w'] are those of [w] except under writable names. *)
Definition files_agree_off {ES} (writable : string → Prop)
  (w w' : world ES) : Prop :=
  ∀ p, ¬ writable p → files w' !! p = files w !! p.

(** The store of [w'] is the one of [w] as far as the generation of a
    post cannot see: outside, environment, files and log. *)
Definition same_outside {ES} (w w' : world ES) : Prop :=
  external w' = external w ∧ environ w' = environ w
  ∧ files w' = files w ∧ log w' = log w.

(** The answers the model gives to the requests of the loop of
    [build_blog_post], one after the other and each with the answers
    before it in the history, up to the first request that raises. *)
Fixpoint model_answers {ES} `{!Externals ES} (history : list message)
  (prompts : list (string * string)) (e : ES) : list (option string) :=
  match prompts with
  | [] => []
  | (_, prompt) :: prompts' =>
      match chat_completions_create model_name
              (chapter_messages prompt history) e with
      | (Ok text, e') =>
          text :: model_answers (history ++ [assistant_turn text]) prompts' e'
      | (Raise _, _) => []
      end
  end.

(** ** A second scripted outside: a model without words

    The model answers every request without content; the registry is down
    or delivers an empty specification; everything else goes well. *)

Record wordless := Wordless {
  registry_down : bool;
}.

#[export] Instance wordless_externals : Externals wordless := {|
  get_source_config_spec := λ _ s,
    if registry_down s then (Raise (LibraryError "airbyte"), s)
    else (Ok "{}", s);
  chat_completions_create := λ _ _ s, (Ok None, s);
  requests_post := λ _ _ _ s, (Ok (Response 200 "OK"), s);
  open_for_writing := λ _ s, (Ok tt, s);
  dotenv_file := λ _, ∅;
  OpenAI_client := λ _ s, (Ok tt, s);
|}.

(** ** Facts about Python strings *)

Section PyStrFacts.

Implicit Types (s t old new sub : string) (c : ascii).

Lemma app_cons c s t : String c s +:+ t = String c (s +:+ t).
Proof. reflexivity. Qed.

Lemma app_empty_l s : "" +:+ s = s.
Proof. reflexivity. Qed.

Lemma app_empty_r s : s +:+ "" = s.
Proof. induction s as [|c s IH]; [done|]. by rewrite app_cons, IH. Qed.

Lemma app_assoc_str s t u : (s +:+ t) +:+ u = s +:+ t +:+ u.
Proof. induction s as [|c s IH]; [done|]. by rewrite !app_cons, IH. Qed.

Lemma length_app_str s t :
  String.length (s +:+ t) = (String.length s + String.length t)%nat.
Proof. induction s as [|c s IH]; [done|]. rewrite app_cons. simpl. by rewrite IH. Qed.

Lemma startswith_empty s : startswith s "" = true.
Proof. by destruct s. Qed.

Lemma startswith_cons c d s t :
  startswith (String c s) (String d t) = bool_decide (c = d) && startswith s t.
Proof. reflexivity. Qed.

Lemma startswith_app s t : startswith (s +:+ t) s = true.
Proof.
  induction s as [|c s IH]; [apply startswith_empty|].
  rewrite app_cons, startswith_cons, IH. by rewrite bool_decide_eq_true_2.
Qed.

Lemma startswith_iff s sub :
  startswith s sub = true ↔ ∃ rest, s = sub +:+ rest.
Proof.
  split.
  - revert s. induction sub as [|p sub IH]; intros s Hs.
    + by exists s.
    + destruct s as [|c s]; [done|].
      rewrite startswith_cons in Hs.
      apply andb_true_iff in Hs as [Hc Hs].
      apply bool_decide_eq_true_1 in Hc as ->.
      destruct (IH _ Hs) as [rest ->]. by exists rest.
  - intros [rest ->]. apply startswith_app.
Qed.

Lemma contains_cons c s sub :
  contains (String c s) sub = startswith (String c s) sub || contains s sub.
Proof. reflexivity. Qed.

Lemma contains_iff s sub : contains s sub = true ↔ occurs_in sub s.
Proof.
  split.
  - induction s as [|c s IH]; intros Hs.
    + change (startswith "" sub || false = true) in Hs.
      rewrite orb_false_r in Hs. apply startswith_iff in Hs as [rest ->].
      by exists "", rest.
    + rewrite contains_cons in Hs. apply orb_true_iff in Hs as [Hs|Hs].
      * apply startswith_iff in Hs as [rest ->]. by exists "", rest.
      * destruct (IH Hs) as (a & b & ->). by exists (String c a), b.
  - intros (a & b & ->). induction a as [|c a IH].
    + rewrite app_empty_l. destruct (sub +:+ b) eqn:E.
      * simpl. destruct sub; [done|discriminate].
      * rewrite contains_cons, <- E, startswith_app. done.
    + rewrite app_cons, contains_cons, IH. apply orb_true_r.
Qed.

Lemma not_contains_iff s sub : contains s sub = false ↔ ¬ occurs_in sub s.
Proof. rewrite <- contains_iff. by destruct (contains s sub). Qed.

(** *** The scan of [replace] *)

Lemma replace_scan_skip old new a rest :
  replace_scan old new (String.length a) (a +:+ rest)
  = replace_scan old new 0 rest.
Proof. induction a as [|c a IH]; [by destruct rest|]. by rewrite app_cons. Qed.

Lemma replace_scan_match old new rest :
  old ≠ "" →
  replace_scan old new 0 (old +:+ rest) = new +:+ replace_scan old new 0 rest.
Proof.
  destruct old as [|c old]; [done|]. intros _.
  rewrite app_cons. cbn [replace_scan]. rewrite <- app_cons, startswith_app.
  cbn [String.length Nat.pred]. by rewrite replace_scan_skip.
Qed.

Lemma replace_scan_step old new c s :
  startswith (String c s) old = false →
  replace_scan old new 0 (String c s) = String c (replace_scan old new 0 s).
Proof. intros H. cbn [replace_scan]. by rewrite H. Qed.

(** Induction along the scan: the text is empty, begins with a match, or
    begins with a character that starts no match. *)
Lemma scan_ind old (P : string → Prop) :
  old ≠ "" →
  P "" →
  (∀ rest, P rest → P (old +:+ rest)) →
  (∀ c s, startswith (String c s) old = false → P s → P (String c s)) →
  ∀ s, P s.
Proof.
  intros Hold Hnil Hmatch Hstep s.
  remember (String.length s) as n eqn:Hn. revert s Hn.
  induction n as [n IH] using lt_wf_ind. intros s ->.
  destruct s as [|c s]; [done|].
  destruct (startswith (String c s) old) eqn:Hs.
  - apply startswith_iff in Hs as [rest Hs]. rewrite Hs.
    apply Hmatch, (IH (String.length rest)); [|done].
    rewrite Hs, length_app_str. destruct old; [done|]. simpl. lia.
  - apply Hstep; [done|]. apply (IH (String.length s)); [simpl; lia|done].
Qed.

Lemma replace_nonempty s old new :
  old ≠ "" → replace s old new = replace_scan old new 0 s.
Proof. by destruct old. Qed.

Lemma replace_match old new rest :
  old ≠ "" → replace (old +:+ rest) old new = new +:+ replace rest old new.
Proof. intros H. rewrite !replace_nonempty by done. by apply replace_scan_match. Qed.

Lemma replace_step old new c s :
  old ≠ "" → startswith (String c s) old = false →
  replace (String c s) old new = String c (replace s old new).
Proof. intros H ?. rewrite !replace_nonempty by done. by apply replace_scan_step. Qed.

Lemma replace_empty_text old new : old ≠ "" → replace "" old new = "".
Proof. by destruct old. Qed.

(** A text without an occurrence of the pattern is left as it is. *)
Lemma replace_absent s old new :
  old ≠ "" → contains s old = false → replace s old new = s.
Proof.
  intros Hold. induction s as [|c s IH]; intros Hs.
  - by apply replace_empty_text.
  - rewrite contains_cons in Hs. apply orb_false_iff in Hs as [H1 H2].
    rewrite replace_step by done. by rewrite IH.
Qed.

End PyStrFacts.


(** ** Searching across a separator, and the two patterns of the cleanup *)

Section Patterns.

Implicit Types (s t a b old new sub : string) (c : ascii).

(** A character that is not in the pattern cuts the search in two. *)
Lemma startswith_sep c a b sub :
  has_char c sub = false →
  startswith (a +:+ String c b) sub = startswith a sub.
Proof.
  revert a. induction sub as [|p sub IH]; intros a Hc.
  - by rewrite !startswith_empty.
  - cbn [has_char] in Hc. apply orb_false_iff in Hc as [Hp Hc].
    destruct a as [|d a].
    + rewrite app_empty_l, startswith_cons.
      apply bool_decide_eq_false_1 in Hp.
      rewrite bool_decide_eq_false_2 by congruence. done.
    + rewrite app_cons, !startswith_cons, IH by done. done.
Qed.

Lemma contains_sep c a b sub :
  has_char c sub = false →
  contains (a +:+ String c b) sub = contains a sub || contains b sub.
Proof.
  intros Hc. induction a as [|d a IH].
  - rewrite app_empty_l, contains_cons.
    rewrite <- (app_empty_l (String c b)), startswith_sep by done.
    change (contains "" sub) with (startswith "" sub || false).
    by rewrite orb_false_r.
  - rewrite app_cons, !contains_cons, IH.
    rewrite <- app_cons, startswith_sep by done.
    by rewrite orb_assoc.
Qed.

Lemma contains_app_l a b sub :
  contains a sub = true → contains (a +:+ b) sub = true.
Proof.
  rewrite !contains_iff. intros (x & y & ->). exists x, (y +:+ b).
  by rewrite !app_assoc_str.
Qed.

Lemma contains_app_r a b sub :
  contains b sub = true → contains (a +:+ b) sub = true.
Proof.
  rewrite !contains_iff. intros (x & y & ->). exists (a +:+ x), y.
  by rewrite !app_assoc_str.
Qed.

Lemma has_char_app c a b : has_char c (a +:+ b) = has_char c a || has_char c b.
Proof.
  induction a as [|d a IH]; [done|].
  rewrite app_cons. cbn [has_char]. by rewrite IH, orb_assoc.
Qed.

Lemma count_char_app c a b :
  count_char c (a +:+ b) = (count_char c a + count_char c b)%nat.
Proof.
  induction a as [|d a IH]; [done|].
  rewrite app_cons. cbn [count_char]. rewrite IH. lia.
Qed.

(** *** Removing a pattern never adds characters *)

Lemma count_char_removed c s old :
  old ≠ "" → (count_char c (replace s old "") ≤ count_char c s)%nat.
Proof.
  intros Hold. revert s.
  apply (scan_ind old); [done | | intros rest IH | intros d s Hd IH].
  - by rewrite replace_empty_text.
  - rewrite replace_match, app_empty_l, count_char_app by done. lia.
  - rewrite replace_step by done. cbn [count_char]. lia.
Qed.

Lemma count_char_kept c s old :
  old ≠ "" → has_char c old = false →
  count_char c (replace s old "") = count_char c s.
Proof.
  intros Hold Hc. revert s.
  apply (scan_ind old); [done | | intros rest IH | intros d s Hd IH].
  - by rewrite replace_empty_text.
  - rewrite replace_match, app_empty_l, count_char_app, IH by done.
    assert (count_char c old = 0%nat) as ->; [|done].
    clear -Hc. induction old as [|p old IH]; [done|].
    cbn [has_char] in Hc. apply orb_false_iff in Hc as [Hp Hc].
    cbn [count_char]. rewrite Hp, IH by done. done.
  - rewrite replace_step by done. cbn [count_char]. by rewrite IH.
Qed.

Lemma length_removed s old :
  old ≠ "" → (String.length (replace s old "") ≤ String.length s)%nat.
Proof.
  intros Hold. revert s.
  apply (scan_ind old); [done | | intros rest IH | intros d s Hd IH].
  - by rewrite replace_empty_text.
  - rewrite replace_match, app_empty_l, length_app_str by done. lia.
  - rewrite replace_step by done. cbn [String.length]. lia.
Qed.

(** *** The fence marker *)


Lemma fence_not_empty : fence ≠ "".
Proof. done. Qed.

Lemma startswith_fence_cons c s :
  startswith (String c s) fence
  = bool_decide (c = BACKTICK) && startswith s "``".
Proof. reflexivity. Qed.

(** One pass removes every fence: runs of backticks shrink below three. *)
Lemma fence_scan_invariant s :
  contains (replace s fence "") fence = false
  ∧ (startswith s "``" = false → startswith (replace s fence "") "``" = false)
  ∧ (startswith s "`" = false → startswith (replace s fence "") "`" = false).
Proof.
  revert s.
  apply (scan_ind fence); [done | | intros rest IH | intros c s Hc IH].
  - by rewrite replace_empty_text.
  - rewrite replace_match, app_empty_l by done.
    destruct IH as (IH1 & _ & _). split; [done|]. by split.
  - rewrite replace_step by done. destruct IH as (IH1 & IH2 & IH3).
    rewrite startswith_fence_cons in Hc.
    split; [|split].
    + rewrite contains_cons, IH1, orb_false_r, startswith_fence_cons.
      destruct (bool_decide (c = BACKTICK)); [|done].
      cbn [andb] in *. by apply IH2.
    + change (startswith (String c ?x) "``")
        with (bool_decide (c = BACKTICK) && startswith x "`").
      destruct (bool_decide (c = BACKTICK)); [|done].
      cbn [andb]. apply IH3.
    + change (startswith (String c ?x) "`")
        with (bool_decide (c = BACKTICK) && startswith x "").
      rewrite !startswith_empty, !andb_true_r. done.
Qed.

Lemma no_fence_left s : contains (replace s fence "") fence = false.
Proof. apply fence_scan_invariant. Qed.

(** Text without a backtick passes the fence removal unchanged, up to
    the closing fence. *)
Lemma fence_removed_behind body :
  has_char BACKTICK body = false → replace (body +:+ fence) fence "" = body.
Proof.
  induction body as [|c body IH]; intros Hb; [done|].
  cbn [has_char] in Hb. apply orb_false_iff in Hb as [Hc Hb].
  rewrite app_cons, replace_step; [by rewrite IH|done|].
  by rewrite startswith_fence_cons, Hc.
Qed.

(** *** The word json *)

(** No proper overlap: a text that does not begin with [json] does not
    begin with it either when an occurrence follows. *)
Lemma json_no_overlap c s b :
  startswith (String c s) "json" = false →
  startswith (String c s +:+ "json" +:+ b) "json" = false.
Proof.
  intros H.
  destruct s as [|c2 [|c3 [|c4 s]]];
    rewrite ?app_cons, ?app_empty_l in *;
    cbn [startswith] in *; rewrite ?startswith_empty in *;
    repeat case_bool_decide; simplify_eq/=; done.
Qed.

(** Every occurrence is cut out, wherever it stands. *)
Lemma replace_json_split a b :
  replace (a +:+ "json" +:+ b) "json" ""
  = replace a "json" "" +:+ replace b "json" "".
Proof.
  revert a.
  apply (scan_ind "json"); [done | | intros rest IH | intros c s Hc IH].
  - by rewrite app_empty_l, (replace_match "json") by done.
  - rewrite app_assoc_str, !(replace_match "json"), !app_empty_l by done.
    apply IH.
  - pose proof (json_no_overlap c s b Hc) as Hc'. rewrite app_cons in Hc'.
    rewrite (replace_step "json" "" c s) by done.
    rewrite !(app_cons c), (replace_step "json") by done.
    by rewrite IH.
Qed.

End Patterns.


(** ** Running the script *)

Section Runs.

Context {ES : Type} `{!Externals ES}.

Implicit Types (w : world ES) (l : list event).

Lemma bind_ok {A B} (m : M ES A) (k : A → M ES B) w a w' :
  m w = (Ok a, w') → bind m k w = k a w'.
Proof. unfold bind. by intros ->. Qed.

Lemma bind_raise {A B} (m : M ES A) (k : A → M ES B) w e w' :
  m w = (Raise e, w') → bind m k w = (Raise e, w').
Proof. unfold bind. by intros ->. Qed.

Lemma bind_assoc {A B C} (m : M ES A) (k : A → M ES B) (h : B → M ES C) w :
  bind (bind m k) h w = bind m (λ a, bind (k a) h) w.
Proof. unfold bind. by destruct (m w) as [[a|e] w']. Qed.

Lemma for_each_cons {A} (x : A) xs (body : A → M ES unit) w :
  for_each (x :: xs) body w = bind (body x) (λ _, for_each xs body) w.
Proof. reflexivity. Qed.

Lemma for_each_app_ok {A} (xs ys : list A) (body : A → M ES unit) w w' :
  for_each xs body w = (Ok tt, w') →
  for_each (xs ++ ys) body w = for_each ys body w'.
Proof.
  revert w. induction xs as [|x xs IH]; intros w H.
  - by injection H as ->.
  - rewrite <- app_comm_cons, !for_each_cons in *. unfold bind in *.
    destruct (body x w) as [[[]|e] w1]; [by apply IH|done].
Qed.

Lemma for_each_app_raise {A} (xs ys : list A) (body : A → M ES unit) w e w' :
  for_each xs body w = (Raise e, w') →
  for_each (xs ++ ys) body w = (Raise e, w').
Proof.
  revert w. induction xs as [|x xs IH]; intros w H; [done|].
  rewrite <- app_comm_cons, !for_each_cons in *. unfold bind in *.
  destruct (body x w) as [[[]|e1] w1]; [by apply IH|done].
Qed.

(** *** The log and its projections *)

Lemma chat_requests_app l1 l2 :
  chat_requests (l1 ++ l2) = chat_requests l1 ++ chat_requests l2.
Proof. apply omap_app. Qed.


(** *** One chapter *)

Lemma generate_and_record_run chapter prompt w :
  generate_and_record (chapter, prompt) w =
  let messages := chapter_messages prompt (conversation_history w) in
  let l := log w ++ [ChatCreate model_name messages] in
  match chat_completions_create model_name messages (external w) with
  | (Ok text, e') =>
      (Ok tt, World e' (environ w) (files w)
                (conversation_history w ++ [assistant_turn text])
                (<[chapter := text]> (blog_chapters w)) l)
  | (Raise x, e') =>
      (Raise x, World e' (environ w) (files w) (conversation_history w)
                  (blog_chapters w) l)
  end.
Proof.
  destruct w as [e env fs h ch l0].
  unfold generate_and_record, generate_blog_chapter, bind, gets, modify,
    emit, call, getitem; cbn.
  destruct (chat_completions_create _ _ e) as [[text|x] e']; cbn; [|done].
  by rewrite lookup_insert_eq.
Qed.

(** *** The loop over the prompts *)

Lemma chapters_loop prompts w :
  ∃ texts,
    let r := for_each prompts generate_and_record w in
    conversation_history r.2
      = conversation_history w ++ (assistant_turn <$> texts)
    ∧ blog_chapters r.2 = record_texts (blog_chapters w) prompts texts
    ∧ chat_requests (log r.2)
      = chat_requests (log w)
          ++ requests_of (conversation_history w) prompts texts
    ∧ match r.1 with
      | Ok _ => length texts = length prompts
      | Raise _ => (length texts < length prompts)%nat
      end.
Proof.
  revert w. induction prompts as [|[chapter prompt] prompts IH]; intros w.
  - exists []. cbn. by rewrite !app_nil_r.
  - rewrite for_each_cons. unfold bind.
    rewrite generate_and_record_run. cbv zeta.
    destruct (chat_completions_create _ _ (external w)) as [[text|x] e'].
    + match goal with |- context [for_each prompts _ ?w1] =>
        destruct (IH w1) as (texts & Hh & Hc & Hl & Hr) end.
      exists (text :: texts). cbv zeta in *. cbn [conversation_history
        blog_chapters log] in *.
      rewrite Hh, Hc, Hl, chat_requests_app. cbn [fmap list_fmap].
      rewrite <- !app_assoc. split_and!; [done|done|done|].
      destruct (for_each prompts generate_and_record _).1; cbn; lia.
    + exists []. cbn. rewrite chat_requests_app, !app_nil_r.
      split_and!; [done..|lia].
Qed.

Lemma requests_of_length history prompts texts :
  length (requests_of history prompts texts)
  = (S (length texts) `min` length prompts)%nat.
Proof.
  revert history texts.
  induction prompts as [|[k p] prompts IH]; intros history texts.
  - cbn [requests_of length]. lia.
  - destruct texts as [|t texts]; cbn [requests_of length]; [lia|].
    rewrite IH. lia.
Qed.

(** The request number [k] carries the first [k] answers. *)
Lemma requests_of_lookup history prompts texts k chapter prompt :
  prompts !! k = Some (chapter, prompt) →
  (k ≤ length texts)%nat →
  requests_of history prompts texts !! k
  = Some (chapter_messages prompt
            (history ++ (assistant_turn <$> take k texts))).
Proof.
  revert history texts k.
  induction prompts as [|[c p] prompts IH]; intros history texts k Hk Hlen;
    [done|].
  destruct k as [|k].
  - injection Hk as -> ->. cbn. by rewrite app_nil_r.
  - destruct texts as [|t texts]; [cbn in Hlen; lia|].
    cbn in Hk, Hlen |- *. rewrite (IH _ _ k) by (done || lia).
    by rewrite <- app_assoc.
Qed.


(** With distinct chapter names every answer is found under its name. *)
Lemma record_texts_lookup chapters prompts texts k chapter prompt text :
  NoDup (prompts.*1) →
  prompts !! k = Some (chapter, prompt) →
  texts !! k = Some text →
  record_texts chapters prompts texts !! chapter = Some text.
Proof.
  unfold record_texts. revert chapters texts k.
  induction prompts as [|[c p] prompts IH]; intros chapters texts k Hnd Hk Ht;
    [done|].
  cbn in Hnd. apply NoDup_cons in Hnd as [Hc Hnd].
  destruct texts as [|t texts]; [done|]. cbn [fmap list_fmap zip zip_with foldl].
  destruct k as [|k].
  - injection Hk as -> ->. injection Ht as ->.
    clear IH Hnd. revert chapters texts.
    induction prompts as [|[c' p'] prompts IH]; intros chapters texts.
    + cbn. apply lookup_insert_eq.
    + destruct texts as [|t' texts]; [cbn; apply lookup_insert_eq|].
      cbn [fmap list_fmap zip zip_with foldl fst snd].
      cbn in Hc. apply not_elem_of_cons in Hc as [Hne Hc].
      rewrite insert_insert_ne by done. by apply IH.
  - by apply (IH _ _ k).
Qed.

End Runs.


Section Functions.

Context {ES : Type} `{!Externals ES}.

Implicit Types (w : world ES) (l : list event).

(** *** The assembly *)

Lemma assemble_run chapters cta i c1 c2 c3 co d s w :
  chapters !! "introduction" = Some (Some i) →
  chapters !! "chapter_1" = Some (Some c1) →
  chapters !! "chapter_2" = Some (Some c2) →
  chapters !! "chapter_3" = Some (Some c3) →
  chapters !! "conclusion" = Some (Some co) →
  cta !! "docs_quickstarts_cta" = Some d →
  cta !! "slack_newsletter_cta" = Some s →
  assemble chapters cta w
  = (Ok (i +:+ blank_line +:+ c1 +:+ blank_line +:+ c2 +:+ blank_line
         +:+ d +:+ blank_line +:+ c3 +:+ blank_line +:+ co +:+ blank_line
         +:+ s), w).
Proof.
  intros Hi H1 H2 H3 Hco Hd Hs.
  unfold assemble, getitem, bind.
  rewrite Hi, H1, H2, H3, Hco, Hd, Hs. cbn [ret add].
  by rewrite !app_assoc_str.
Qed.

(** *** The local copy *)

Lemma download_post_run source body w :
  download_post source body w =
  let f := filename_of source in
  match open_for_writing f (external w) with
  | (Ok _, e') =>
      (Ok tt, World e' (environ w) (<[f := body]> (files w))
                (conversation_history w) (blog_chapters w)
                (log w ++ [OpenW f; Print (fstr ["File saved as "; f; "!"])]))
  | (Raise x, e') =>
      (Raise x, World e' (environ w) (files w) (conversation_history w)
                  (blog_chapters w) (log w ++ [OpenW f]))
  end.
Proof.
  destruct w as [e env fs h ch l0].
  cbv [download_post print bind modify emit call set_log set_files
       set_external external environ files conversation_history
       blog_chapters log].
  destruct (open_for_writing _ e) as [[[]|x] e']; [|done].
  rewrite lookup_insert_eq, insert_insert_eq, <- app_assoc. done.
Qed.

(** *** The upload *)

Lemma upload_post_to_webflow_run source body w :
  upload_post_to_webflow source body w =
  let headers := headers_of (environ w !! "WEBFLOW_API_TOKEN") in
  let data := blog_post_data source body in
  match requests_post api_url data headers (external w) with
  | (Ok r, e') =>
      (Ok tt, World e' (environ w) (files w) (conversation_history w)
                (blog_chapters w)
                (log w ++ [HttpPost api_url data headers;
                           Print (if bool_decide
                                       (status_code r ∈ [200; 201; 202])
                                  then upload_success_line source
                                  else upload_failure_line source r)]))
  | (Raise x, e') =>
      (Raise x, World e' (environ w) (files w) (conversation_history w)
                  (blog_chapters w)
                  (log w ++ [HttpPost api_url data headers]))
  end.
Proof.
  destruct w as [e env fs h ch l0].
  cbv [upload_post_to_webflow os_getenv print bind gets modify emit call
       set_log set_external external environ files conversation_history
       blog_chapters log].
  destruct (requests_post _ _ _ e) as [[r|x] e']; [|done].
  destruct (bool_decide _); by rewrite <- app_assoc.
Qed.

(** *** What no step of the loop touches *)

Lemma extends_refl w : extends w w.
Proof. split; [done|]. exists []. by rewrite app_nil_r. Qed.

Lemma extends_trans w1 w2 w3 : extends w1 w2 → extends w2 w3 → extends w1 w3.
Proof.
  intros [He1 [l1 Hl1]] [He2 [l2 Hl2]]. split; [congruence|].
  exists (l1 ++ l2). by rewrite Hl2, Hl1, app_assoc.
Qed.

Lemma steady_ret {A} (a : A) : steady (ret a : M ES A).
Proof. intros w. apply extends_refl. Qed.

Lemma steady_raise {A} e : steady (raise e : M ES A).
Proof. intros w. apply extends_refl. Qed.

Lemma steady_gets {A} (f : world ES → A) : steady (gets f).
Proof. intros w. apply extends_refl. Qed.

Lemma steady_bind {A B} (m : M ES A) (k : A → M ES B) :
  steady m → (∀ a, steady (k a)) → steady (bind m k).
Proof.
  intros Hm Hk w. unfold bind. specialize (Hm w).
  destruct (m w) as [[a|e] w1]; [|done].
  eapply extends_trans; [exact Hm|apply Hk].
Qed.

Lemma steady_modify (f : world ES → world ES) :
  (∀ w, environ (f w) = environ w) → (∀ w, log (f w) = log w) →
  steady (modify f).
Proof.
  intros He Hl w. split; cbn; [done|]. exists []. by rewrite Hl, app_nil_r.
Qed.

Lemma steady_emit e : steady (emit e : M ES unit).
Proof. intros w. split; [done|]. by exists [e]. Qed.

Lemma steady_call {A} (f : ES → result A * ES) : steady (call f).
Proof.
  intros w. unfold call. destruct (f (external w)) as [r e'].
  split; [done|]. exists []. by rewrite app_nil_r.
Qed.

Lemma steady_getitem {V} (d : gmap string V) key :
  steady (getitem d key : M ES V).
Proof. unfold getitem. destruct (d !! key); [apply steady_ret|apply steady_raise]. Qed.

Lemma steady_add x y : steady (add x y : M ES string).
Proof. destruct x, y; first [apply steady_ret|apply steady_raise]. Qed.

Lemma steady_for_each {A} (xs : list A) (body : A → M ES unit) :
  (∀ x, steady (body x)) → steady (for_each xs body).
Proof.
  intros Hb. induction xs as [|x xs IH]; [apply steady_ret|].
  apply steady_bind; [apply Hb|done].
Qed.

End Functions.

Create HintDb steady.
#[export] Hint Resolve steady_ret steady_raise steady_gets steady_emit
  steady_call steady_getitem steady_add : steady.
#[export] Hint Extern 2 (steady (bind _ _)) =>
  apply steady_bind; [|intros ?] : steady.
#[export] Hint Extern 2 (steady (modify _)) =>
  apply steady_modify; intros [] ; reflexivity : steady.
#[export] Hint Extern 2 (steady (print _)) => apply steady_emit : steady.
#[export] Hint Extern 3 (steady (for_each _ _)) =>
  apply steady_for_each; intros ? : steady.

Section Steady.

Context {ES : Type} `{!Externals ES}.

Lemma steady_create_code_example connector :
  steady (create_code_example connector).
Proof.
  unfold create_code_example.
  repeat (apply steady_bind; [solve [auto with steady]|intros ?]).
  apply steady_bind; [|auto with steady].
  match goal with |- steady (match ?c with _ => _ end) => destruct c end;
    auto with steady.
Qed.

Lemma steady_generate_and_record item : steady (generate_and_record item).
Proof.
  destruct item as [chapter prompt].
  unfold generate_and_record, generate_blog_chapter. auto 20 with steady.
Qed.

Lemma steady_assemble chapters cta :
  steady (assemble chapters cta : M ES string).
Proof. unfold assemble. auto 40 with steady. Qed.

Lemma steady_build_blog_post prompts cta :
  steady (build_blog_post prompts cta).
Proof.
  unfold build_blog_post.
  apply steady_bind; [|intros ?; apply steady_bind; [auto with steady|]].
  - apply steady_for_each, steady_generate_and_record.
  - intros ?. apply steady_assemble.
Qed.

Lemma steady_download_post source body : steady (download_post source body).
Proof. unfold download_post. auto 20 with steady. Qed.

Lemma steady_upload_post_to_webflow source body :
  steady (upload_post_to_webflow source body).
Proof.
  unfold upload_post_to_webflow, os_getenv.
  repeat (apply steady_bind; [solve [auto with steady]|intros ?]).
  destruct (bool_decide _); auto with steady.
Qed.

Lemma steady_produce_post source : steady (produce_post source).
Proof.
  unfold produce_post.
  apply steady_bind; [apply steady_create_code_example|intros ?].
  apply steady_bind; [auto with steady|intros ?].
  apply steady_bind; [auto with steady|intros ?].
  apply steady_bind; [apply steady_build_blog_post|intros ?].
  apply steady_bind; [apply steady_download_post|intros ?].
  apply steady_ret.
Qed.

Lemma steady_process_source source : steady (process_source source).
Proof.
  apply steady_bind; [apply steady_produce_post|intros ?].
  apply steady_upload_post_to_webflow.
Qed.

End Steady.


(** ** The snippet and the cleanup *)

Section Snippet.

Implicit Types (connector config sub response body : string).

(** The template in pieces that end and begin with the characters next to
    the two holes: a space, a comma, an equals sign, a line feed. *)
Lemma code_snippet_pieces :
  ∃ H B A T, ∀ connector config,
    code_snippet connector config
    = H +:+ String " " (connector +:+ String "," (B +:+ String "="
        (config +:+ String "010" (A +:+ String " "
        (connector +:+ String " " T))))).
Proof.
  exists (String.substring 0 (String.length snippet_head - 1) snippet_head),
    (String.substring 1 (String.length snippet_before_config - 2)
       snippet_before_config),
    (String.substring 1 (String.length snippet_after_config - 2)
       snippet_after_config),
    (String.substring 1 (String.length snippet_tail - 1) snippet_tail).
  intros connector config.
  set (H := String.substring _ _ snippet_head).
  set (B := String.substring _ _ snippet_before_config).
  set (A := String.substring _ _ snippet_after_config).
  set (T := String.substring _ _ snippet_tail).
  assert (snippet_head = H +:+ String " " "") as Hh by (by vm_compute).
  assert (snippet_before_config = String "," (B +:+ String "=" "")) as Hb
    by (by vm_compute).
  assert (snippet_after_config = String "010" (A +:+ String " " "")) as Ha
    by (by vm_compute).
  assert (snippet_tail = String " " T) as Ht by (by vm_compute).
  unfold code_snippet, fstr. cbn [foldr]. rewrite Hh, Hb, Ha, Ht.
  by rewrite !app_empty_r, ?app_assoc_str, ?app_cons, ?app_assoc_str,
    ?app_cons, ?app_empty_l.
Qed.

(** A pattern without those four characters is in the snippet only where
    it is in the template, in the connector name or in the configuration. *)
Lemma code_snippet_search connector config sub :
  sub ≠ "" →
  has_char " " sub = false → has_char "," sub = false →
  has_char "=" sub = false → has_char "010" sub = false →
  contains (code_snippet connector config) sub
  = contains (code_snippet "" "") sub
    || contains connector sub || contains config sub.
Proof.
  intros Hsub H1 H2 H3 H4.
  destruct code_snippet_pieces as (H & B & A & T & Heq).
  rewrite !Heq, !contains_sep by done.
  assert (contains "" sub = false) as ->.
  { destruct sub; [done|]. reflexivity. }
  destruct (contains H sub), (contains B sub), (contains A sub),
    (contains T sub), (contains connector sub), (contains config sub); done.
Qed.

Lemma clean_config_no_fence response :
  ¬ occurs_in fence (clean_config response).
Proof. apply not_contains_iff, no_fence_left. Qed.

Lemma code_snippet_no_fence connector response :
  ¬ occurs_in fence connector →
  ¬ occurs_in fence (code_snippet connector (clean_config response)).
Proof.
  intros Hc. apply not_contains_iff. apply not_contains_iff in Hc.
  rewrite code_snippet_search by done.
  rewrite Hc. unfold clean_config. rewrite (no_fence_left _).
  by vm_compute.
Qed.

(** A fenced answer comes out as what stands between the fences. *)
Lemma clean_config_fenced body :
  has_char BACKTICK body = false → ¬ occurs_in "json" body →
  clean_config (fence +:+ "json" +:+ body +:+ fence) = body.
Proof.
  intros Hb Hj. apply not_contains_iff in Hj. unfold clean_config.
  assert (replace (fence +:+ "json" +:+ body +:+ fence) "json" ""
          = fence +:+ body +:+ fence) as ->.
  { change (fence +:+ ?x)
      with (String BACKTICK (String BACKTICK (String BACKTICK x))).
    rewrite !(replace_step "json") by done.
    rewrite (replace_match "json"), app_empty_l by done.
    rewrite (replace_absent _ "json"); [done..|].
    change fence with (String BACKTICK "``").
    rewrite (contains_sep BACKTICK) by done. by rewrite Hj. }
  rewrite (replace_match fence), app_empty_l by done.
  by apply fence_removed_behind.
Qed.

(** What the cleanup does to an answer that contains [json]. *)
Lemma clean_config_json_count a b :
  (count_char "j" (clean_config (a +:+ "json" +:+ b))
   < count_char "j" (replace (a +:+ "json" +:+ b) fence ""))%nat.
Proof.
  unfold clean_config.
  rewrite !(count_char_kept "j" _ fence) by done.
  rewrite replace_json_split, !count_char_app.
  pose proof (count_char_removed "j" a "json" ltac:(done)).
  pose proof (count_char_removed "j" b "json" ltac:(done)).
  change (count_char "j" "json") with 1%nat. lia.
Qed.

Lemma clean_config_json_length a b :
  (String.length (clean_config (a +:+ "json" +:+ b)) + 4
   ≤ String.length (a +:+ "json" +:+ b))%nat.
Proof.
  unfold clean_config.
  pose proof (length_removed (replace (a +:+ "json" +:+ b) "json" "") fence
                ltac:(done)).
  rewrite replace_json_split, !length_app_str in *.
  pose proof (length_removed a "json" ltac:(done)).
  pose proof (length_removed b "json" ltac:(done)).
  change (String.length "json") with 4%nat. unfold fence in *. lia.
Qed.

(** The slug of an identifier that carries the prefix once. *)
Lemma replace_source_prefix rest :
  contains rest "source-" = false →
  replace ("source-" +:+ rest) "source-" "" = rest.
Proof.
  intros H. rewrite (replace_match "source-"), app_empty_l by done.
  by apply replace_absent.
Qed.

Lemma app_inj_r s t u : s +:+ u = t +:+ u → s = t.
Proof.
  revert t. induction s as [|c s IH]; intros [|d t] H; [done|..].
  - apply (f_equal String.length) in H.
    rewrite app_empty_l, app_cons in H. cbn [String.length] in H.
    rewrite length_app_str in H. lia.
  - apply (f_equal String.length) in H.
    rewrite app_empty_l, app_cons in H. cbn [String.length] in H.
    rewrite length_app_str in H. lia.
  - rewrite !app_cons in H. injection H as -> H. f_equal. by apply IH.
Qed.

End Snippet.


(** ** The functions of the script, run *)

Section ScriptRuns.

Context {ES : Type} `{!Externals ES}.

Implicit Types (w : world ES) (source : connector).

Lemma create_code_example_run connector w :
  create_code_example connector w =
  match get_source_config_spec connector (external w) with
  | (Ok config_spec, e1) =>
      let messages :=
        [Message "system" (Some "You are a helpful assistant.");
         Message "user" (Some (config_prompt config_spec))] in
      let l := log w ++ [GetSource connector; ChatCreate model_name messages] in
      match chat_completions_create model_name messages e1 with
      | (Ok (Some c), e2) =>
          (Ok (code_snippet connector (clean_config c)),
           set_external e2 (set_log l w))
      | (Ok None, e2) => (Raise AttributeError, set_external e2 (set_log l w))
      | (Raise x, e2) => (Raise x, set_external e2 (set_log l w))
      end
  | (Raise x, e1) =>
      (Raise x, set_external e1 (set_log (log w ++ [GetSource connector]) w))
  end.
Proof.
  destruct w as [e env fs h ch l0].
  cbv [create_code_example bind modify emit call ret raise set_log
       set_external external environ files conversation_history
       blog_chapters log].
  destruct (get_source_config_spec _ e) as [[spec|x] e1]; [|done].
  destruct (chat_completions_create _ _ e1) as [[[c|]|x] e2];
    by rewrite <- ?app_assoc.
Qed.

(** The assembly reads and concatenates; it leaves the store as it is. *)
Lemma bind_same_store {A B} (m : M ES A) (k : A → M ES B) :
  (∀ w, (m w).2 = w) → (∀ a w, (k a w).2 = w) → ∀ w, (bind m k w).2 = w.
Proof.
  intros Hm Hk w. unfold bind. specialize (Hm w).
  destruct (m w) as [[a|x] w1]; cbn in Hm; subst w1; [apply Hk|done].
Qed.

Lemma getitem_same_store {V} (d : gmap string V) key w :
  (getitem d key w).2 = w.
Proof. unfold getitem. by destruct (d !! key). Qed.

Lemma add_same_store x y w : (add x y w).2 = w.
Proof. by destruct x, y. Qed.

Lemma assemble_pure chapters cta w : (assemble chapters cta w).2 = w.
Proof.
  revert w. unfold assemble.
  repeat (apply bind_same_store;
          [intros; first [apply getitem_same_store|apply add_same_store]
          |intros ?]).
  intros; apply add_same_store.
Qed.

Lemma build_blog_post_run prompts cta w :
  build_blog_post prompts cta w =
  match for_each prompts generate_and_record w with
  | (Ok _, w1) => assemble (blog_chapters w1) cta w1
  | (Raise x, w1) => (Raise x, w1)
  end.
Proof.
  unfold build_blog_post, bind, gets.
  by destruct (for_each prompts generate_and_record w) as [[[]|x] w1].
Qed.

(** When the loop over prompts with distinct chapter names returns, the
    answers are in the history in the order of the calls and each one is
    stored under the name of its chapter. *)
Lemma generated_texts_are_stored prompts w w1 :
  NoDup (prompts.*1) →
  for_each prompts generate_and_record w = (Ok tt, w1) →
  ∃ texts : list (option string),
    length texts = length prompts
    ∧ conversation_history w1
      = conversation_history w ++ (assistant_turn <$> texts)
    ∧ ∀ k chapter prompt text,
        prompts !! k = Some (chapter, prompt) →
        texts !! k = Some text →
        blog_chapters w1 !! chapter = Some text.
Proof.
  intros Hnd Hloop.
  destruct (chapters_loop prompts w) as (texts & Hh & Hc & _ & Hr).
  cbv zeta in *. rewrite Hloop in *. cbn [fst snd] in *.
  exists texts. split_and!; [done..|].
  intros k chapter prompt text Hk Ht. rewrite Hc.
  by eapply record_texts_lookup.
Qed.

End ScriptRuns.


(** ** The loop and the answers of the model *)

Section Answers.

Context {ES : Type} `{!Externals ES}.

Implicit Types (w : world ES).

(** The loop with the answers named: what it appends, stores and sends is
    determined by the answers of the model. *)
Lemma chapters_loop_answers prompts w :
  conversation_history (for_each prompts generate_and_record w).2
  = conversation_history w
      ++ (assistant_turn
            <$> model_answers (conversation_history w) prompts (external w))
  ∧ blog_chapters (for_each prompts generate_and_record w).2
    = record_texts (blog_chapters w) prompts
        (model_answers (conversation_history w) prompts (external w))
  ∧ chat_requests (log (for_each prompts generate_and_record w).2)
    = chat_requests (log w)
        ++ requests_of (conversation_history w) prompts
             (model_answers (conversation_history w) prompts (external w))
  ∧ match (for_each prompts generate_and_record w).1 with
    | Ok _ =>
        length (model_answers (conversation_history w) prompts (external w))
        = length prompts
    | Raise _ =>
        (length (model_answers (conversation_history w) prompts (external w))
         < length prompts)%nat
    end.
Proof.
  revert w. induction prompts as [|[chapter prompt] prompts IH]; intros w.
  - cbn. by rewrite !app_nil_r.
  - rewrite for_each_cons. unfold bind.
    rewrite generate_and_record_run. cbv zeta.
    cbn [model_answers].
    destruct (chat_completions_create _ _ (external w)) as [[text|x] e'].
    + match goal with |- context [for_each prompts _ ?w1] =>
        destruct (IH w1) as (Hh & Hc & Hl & Hr) end.
      cbn [conversation_history blog_chapters log external] in *.
      rewrite Hh, Hc, Hl, chat_requests_app. cbn [fmap list_fmap].
      rewrite <- !app_assoc. split_and!; [done|done|done|].
      destruct (for_each prompts generate_and_record _).1;
        cbn [length] in *; lia.
    + cbn. rewrite chat_requests_app, !app_nil_r.
      split_and!; [done..|lia].
Qed.

(** A chapter behind the last answer keeps the entry it had. *)
Lemma record_texts_lookup_later chapters prompts texts k chapter prompt :
  NoDup (prompts.*1) →
  prompts !! k = Some (chapter, prompt) →
  (length texts ≤ k)%nat →
  record_texts chapters prompts texts !! chapter = chapters !! chapter.
Proof.
  unfold record_texts. revert chapters texts k.
  induction prompts as [|[c p] prompts IH]; intros chapters texts k Hnd Hk Hlen;
    [done|].
  destruct texts as [|t texts]; [done|].
  cbn in Hnd. apply NoDup_cons in Hnd as [Hc Hnd].
  destruct k as [|k]; [cbn in Hlen; lia|].
  cbn in Hk, Hlen. cbn [fmap list_fmap zip zip_with foldl fst snd].
  rewrite (IH _ _ k) by (done || lia).
  apply lookup_insert_ne. intros ->. apply Hc.
  apply list_elem_of_fmap. exists (chapter, prompt). split; [done|].
  by eapply list_elem_of_lookup_2.
Qed.

Lemma chapter_names_distinct source (snippet : string) (N : nat) :
  NoDup ((take N (chapter_prompts source snippet)).*1).
Proof.
  rewrite fmap_take. eapply sublist_NoDup; [|apply sublist_take].
  by apply (bool_decide_unpack (NoDup _)).
Qed.

End Answers.

(** ** The claims *)

Section Generation.

Context {ES : Type} `{!Externals ES}.

Implicit Types (w : world ES) (source : connector).

(** C1.  In whatever order the chapters are generated, once the loop has
    stored the five texts [build_blog_post] returns the introduction,
    chapter_1, chapter_2, the documentation call to action, chapter_3,
    the conclusion and the newsletter call to action, in this order and
    with one blank line between two neighbours; the assembly itself
    changes nothing in the store. *)
Theorem build_blog_post_fixed_order
  (order : list (string * string)) (cta : gmap string string)
  (w w1 : world ES) (i c1 c2 c3 co d s : string) :
  for_each order generate_and_record w = (Ok tt, w1) →
  blog_chapters w1 !! "introduction" = Some (Some i) →
  blog_chapters w1 !! "chapter_1" = Some (Some c1) →
  blog_chapters w1 !! "chapter_2" = Some (Some c2) →
  blog_chapters w1 !! "chapter_3" = Some (Some c3) →
  blog_chapters w1 !! "conclusion" = Some (Some co) →
  cta !! "docs_quickstarts_cta" = Some d →
  cta !! "slack_newsletter_cta" = Some s →
  build_blog_post order cta w
  = (Ok (i +:+ blank_line +:+ c1 +:+ blank_line +:+ c2 +:+ blank_line
         +:+ d +:+ blank_line +:+ c3 +:+ blank_line +:+ co +:+ blank_line
         +:+ s), w1).
Proof.
  intros Hloop Hi H1 H2 H3 Hco Hd Hs.
  rewrite build_blog_post_run, Hloop. by apply assemble_run.
Qed.

(** C3.  For N from 1 to 5: when the first N chapters have been
    generated, the history is the history from before followed by
    exactly N assistant turns, in the order of the calls.  The turns are
    the answers the model gave to these N requests; turn number k holds
    the text stored for chapter number k; and the request for chapter
    number k carried the history with the k texts generated before it,
    so each text was appended before the next prompt went out. *)
Theorem history_after_chapters (N : nat) source (snippet : string)
  (w w1 : world ES) :
  (1 ≤ N ≤ 5)%nat →
  for_each (take N (chapter_prompts source snippet)) generate_and_record w
  = (Ok tt, w1) →
  ∃ texts : list (option string),
    length texts = N
    ∧ texts = model_answers (conversation_history w)
                (take N (chapter_prompts source snippet)) (external w)
    ∧ conversation_history w1
      = conversation_history w ++ (assistant_turn <$> texts)
    ∧ ∀ k chapter prompt,
        (k < N)%nat →
        chapter_prompts source snippet !! k = Some (chapter, prompt) →
        (∃ text, texts !! k = Some text
                 ∧ blog_chapters w1 !! chapter = Some text
                 ∧ conversation_history w1
                     !! (length (conversation_history w) + k)%nat
                   = Some (assistant_turn text))
        ∧ chat_requests (log w1) !! (length (chat_requests (log w)) + k)%nat
          = Some (chapter_messages prompt
                    (conversation_history w
                       ++ (assistant_turn <$> take k texts))).
Proof.
  intros HN Hloop.
  destruct (chapters_loop_answers (take N (chapter_prompts source snippet)) w)
    as (Hh & Hc & Hl & Hr).
  rewrite Hloop in *. cbn [fst snd] in *.
  rewrite length_take in Hr.
  assert (length (chapter_prompts source snippet) = 5%nat) as Hlen by done.
  set (texts := model_answers _ _ _) in *.
  exists texts. split_and!; [lia|done|done|].
  intros k chapter prompt Hk Hprompt.
  assert (take N (chapter_prompts source snippet) !! k
          = Some (chapter, prompt)) as Hprompt'
    by by rewrite lookup_take_lt.
  split.
  - destruct (lookup_lt_is_Some_2 texts k) as [text Htext]; [lia|].
    exists text. split_and!; [done| |].
    + rewrite Hc. eapply record_texts_lookup; [|done..].
      apply chapter_names_distinct.
    + rewrite Hh, lookup_app_r by lia.
      replace (length (conversation_history w) + k
               - length (conversation_history w))%nat with k by lia.
      by rewrite list_lookup_fmap, Htext.
  - rewrite Hl, lookup_app_r by lia.
    replace (length (chat_requests (log w)) + k
             - length (chat_requests (log w)))%nat with k by lia.
    apply requests_of_lookup with chapter; [done|lia].
Qed.


End Generation.

(** In the scripted run the chapters are generated in the reverse order and
    the post still begins with the introduction. *)
Lemma build_blog_post_fixed_order_witness :
  build_blog_post (reverse (chapter_prompts foo "")) ctas
    (fresh (Scripted 0 ∅ None []))
  = (Ok ("reply-0" +:+ blank_line +:+ "reply-4" +:+ blank_line +:+ "reply-3"
         +:+ blank_line +:+ default "" (ctas !! "docs_quickstarts_cta")
         +:+ blank_line +:+ "reply-2" +:+ blank_line +:+ "reply-1"
         +:+ blank_line +:+ default "" (ctas !! "slack_newsletter_cta")),
     (for_each (reverse (chapter_prompts foo "")) generate_and_record
        (fresh (Scripted 0 ∅ None []))).2).
Proof.
  apply build_blog_post_fixed_order; vm_compute; reflexivity.
Defined.

Lemma history_after_chapters_witness :
  ∃ texts : list (option string),
    length texts = 3%nat
    ∧ texts = model_answers []
                (take 3 (chapter_prompts foo "")) (Scripted 0 ∅ None [])
    ∧ conversation_history
        (for_each (take 3 (chapter_prompts foo "")) generate_and_record
           (fresh (Scripted 0 ∅ None []))).2
      = [] ++ (assistant_turn <$> texts)
    ∧ ∀ k chapter prompt,
        (k < 3)%nat →
        chapter_prompts foo "" !! k = Some (chapter, prompt) →
        (∃ text,
           texts !! k = Some text
           ∧ blog_chapters
               (for_each (take 3 (chapter_prompts foo "")) generate_and_record
                  (fresh (Scripted 0 ∅ None []))).2 !! chapter
             = Some text
           ∧ conversation_history
               (for_each (take 3 (chapter_prompts foo "")) generate_and_record
                  (fresh (Scripted 0 ∅ None []))).2
               !! (length (@nil message) + k)%nat
             = Some (assistant_turn text))
        ∧ chat_requests
            (log (for_each (take 3 (chapter_prompts foo ""))
                    generate_and_record (fresh (Scripted 0 ∅ None []))).2)
            !! (length (chat_requests []) + k)%nat
          = Some (chapter_messages prompt
                    ([] ++ (assistant_turn <$> take k texts))).
Proof.
  apply (history_after_chapters 3 foo "" (fresh (Scripted 0 ∅ None []))).
  - lia.
  - vm_compute; reflexivity.
Defined.


Section Publishing.

Context {ES : Type} `{!Externals ES}.

Implicit Types (w : world ES) (source : connector).

(** C2, as the script has it.  No exception is caught: when processing a
    connector raises, in the generation or anywhere else, the loop over
    the catalog ends there with that exception and in the store of that
    moment.  The connectors before it have been processed, the connectors
    after it are not attempted, however many there are. *)
Theorem catalog_loop_stops_at_failure
  (before after : list connector) (failing : connector)
  (w w1 w2 : world ES) (e : exn) :
  for_each before process_source w = (Ok tt, w1) →
  process_source failing w1 = (Raise e, w2) →
  for_each (before ++ failing :: after) process_source w = (Raise e, w2).
Proof.
  intros Hbefore Hfail.
  rewrite (for_each_app_ok _ _ _ _ _ Hbefore), for_each_cons.
  by apply bind_raise.
Qed.

(** C4.  When the CMS answers, the upload returns normally whatever the
    status is.  It prints one line; the line is the success line exactly
    when the status is 200, 201 or 202, and otherwise it is the failure
    line, which carries the status and the body of the answer.  The loop
    over the catalog goes on with the next connector. *)
Theorem upload_classifies_by_status source (body : string) w
  (r : response) (e' : ES) :
  requests_post api_url (blog_post_data source body)
    (headers_of (environ w !! "WEBFLOW_API_TOKEN")) (external w)
  = (Ok r, e') →
  ∃ (line : string) (w' : world ES),
    upload_post_to_webflow source body w = (Ok tt, w')
    ∧ printed (log w') = printed (log w) ++ [line]
    ∧ (line = upload_success_line source
       ↔ status_code r ∈ [200; 201; 202])
    ∧ (status_code r ∉ [200; 201; 202] →
       line = upload_failure_line source r
       ∧ occurs_in (str_of_int (status_code r)) line
       ∧ occurs_in (text r) line)
    ∧ ∀ (rest : list connector) (w0 : world ES),
        produce_post source w0 = (Ok body, w) →
        for_each (source :: rest) process_source w0
        = for_each rest process_source w'.
Proof.
  intros Hpost.
  pose proof (upload_post_to_webflow_run source body w) as Hrun.
  cbv zeta in Hrun. rewrite Hpost in Hrun.
  eexists _, _. split; [exact Hrun|].
  split; [|split; [|split]].
  - cbn [log]. unfold printed. by rewrite omap_app.
  - case_bool_decide as Hs; split; try done.
    all: intros Heq; exfalso; revert Heq;
      unfold upload_failure_line, upload_success_line, fstr; cbn [foldr];
      rewrite !app_cons; discriminate.
  - intros Hs. rewrite bool_decide_eq_false_2 by done.
    split; [done|]. unfold upload_failure_line, fstr. cbn [foldr].
    split.
    + exists ("Failed to upload blog post " +:+ original source
                +:+ ". Status code: "),
        (", Response: " +:+ text r +:+ "").
      by rewrite !app_assoc_str.
    + exists ("Failed to upload blog post " +:+ original source
                +:+ ". Status code: " +:+ str_of_int (status_code r)
                +:+ ", Response: "), "".
      by rewrite !app_assoc_str.
  - intros rest w0 Hprod. rewrite for_each_cons.
    unfold process_source. rewrite bind_assoc.
    rewrite (bind_ok _ _ _ _ _ Hprod).
    by rewrite (bind_ok _ _ _ _ _ Hrun).
Qed.

(** C8.  The local copy goes to [./blogs/<identifier>.md], a name that
    belongs to one identifier only, and a second run for the same
    connector leaves the second body in the file, not the two bodies one
    after the other. *)
Theorem local_file_is_overwritten source (body1 body2 : string)
  (w w1 w2 : world ES) :
  download_post source body1 w = (Ok tt, w1) →
  download_post source body2 w1 = (Ok tt, w2) →
  filename_of source = "./blogs/" +:+ formatted source +:+ ".md"
  ∧ (∀ other, filename_of other = filename_of source →
              formatted other = formatted source)
  ∧ opened_files (log w1) = opened_files (log w) ++ [filename_of source]
  ∧ files w1 = <[filename_of source := body1]> (files w)
  ∧ files w2 = <[filename_of source := body2]> (files w)
  ∧ files w2 !! filename_of source = Some body2.
Proof.
  intros H1 H2.
  rewrite download_post_run in H1, H2. cbv zeta in H1, H2.
  destruct (open_for_writing _ (external w)) as [[[]|x] e1]; [|done].
  injection H1 as <-. cbn [external files] in H2.
  destruct (open_for_writing _ e1) as [[[]|x] e2]; [|done].
  injection H2 as <-. cbn [files log].
  assert (∀ c, filename_of c = "./blogs/" +:+ formatted c +:+ ".md") as Hf.
  { intros c. unfold filename_of, fstr. cbn [foldr]. by rewrite app_empty_r. }
  split_and!.
  - apply Hf.
  - intros other Heq. rewrite !Hf in Heq.
    apply (inj (String.app "./blogs/")) in Heq. by apply app_inj_r in Heq.
  - unfold opened_files. by rewrite omap_app.
  - done.
  - by rewrite insert_insert_eq.
  - apply lookup_insert_eq.
Qed.

(** With the CMS token absent, a connector whose post has been generated
    and written is still posted, with the authorization [Bearer None]. *)
Lemma absent_token_is_posted_as_None source (rest : list connector) w
  (e' : ES) (body : string) (w2 : world ES) :
  (environ w ∪ dotenv_file (external w)) !! "WEBFLOW_API_TOKEN" = None →
  OpenAI_client ((environ w ∪ dotenv_file (external w)) !! "OPENAI_KEY")
    (external w) = (Ok tt, e') →
  produce_post source
    (set_external e' (set_environ (environ w ∪ dotenv_file (external w)) w))
  = (Ok body, w2) →
  main (source :: rest) w
  = bind (upload_post_to_webflow source body)
      (λ _, for_each rest process_source) w2
  ∧ HttpPost api_url (blog_post_data source body) (headers_of None)
    ∈ log (main (source :: rest) w).2
  ∧ headers_of None !! "Authorization" = Some "Bearer None".
Proof.
  intros Htoken Hclient Hprod.
  assert (main (source :: rest) w
          = bind (upload_post_to_webflow source body)
              (λ _, for_each rest process_source) w2) as Hmain.
  { unfold main, load_dotenv, os_getenv, bind at 1 2 3, modify, gets, call.
    cbn [external environ set_environ]. rewrite Hclient.
    rewrite for_each_cons. unfold process_source. rewrite bind_assoc.
    by rewrite (bind_ok _ _ _ _ _ Hprod). }
  split; [done|]. split; [|done].
  rewrite Hmain. unfold bind.
  pose proof (steady_produce_post source
    (set_external e' (set_environ (environ w ∪ dotenv_file (external w)) w)))
    as [Henv _].
  rewrite Hprod in Henv. cbn [snd environ set_external set_environ] in Henv.
  rewrite upload_post_to_webflow_run. cbv zeta. rewrite Henv, Htoken.
  destruct (requests_post _ _ _ (external w2)) as [[r|x] e2].
  - match goal with |- _ ∈ log (for_each rest process_source ?w3).2 =>
      pose proof (steady_for_each rest process_source
                    steady_process_source w3) as [_ [l Hl]]
    end.
    rewrite Hl. cbn [log]. set_solver.
  - cbn [snd log]. set_solver.
Qed.

(** C9, as the script has it.  The script checks neither secret itself.
    With the model key absent, [None] goes to the client constructor, and
    when the constructor refuses it the run ends with the exception of the
    constructor before any connector is processed: nothing has been
    logged, no file has been changed.  The CMS token is read inside each
    upload only: with the token absent the run does not end at the start,
    and a connector whose post has been generated and written is still
    posted, with the authorization [Bearer None]. *)
Theorem missing_secret_at_startup (sources : list connector) w :
  (∀ (x : exn) (e' : ES),
     (environ w ∪ dotenv_file (external w)) !! "OPENAI_KEY" = None →
     OpenAI_client None (external w) = (Raise x, e') →
     main sources w
     = (Raise x,
        set_external e'
          (set_environ (environ w ∪ dotenv_file (external w)) w))
     ∧ log (main sources w).2 = log w
     ∧ files (main sources w).2 = files w)
  ∧ (∀ source (rest : list connector) (e' : ES) (body : string)
       (w2 : world ES),
       sources = source :: rest →
       (environ w ∪ dotenv_file (external w)) !! "WEBFLOW_API_TOKEN" = None →
       OpenAI_client ((environ w ∪ dotenv_file (external w)) !! "OPENAI_KEY")
         (external w) = (Ok tt, e') →
       produce_post source
         (set_external e'
            (set_environ (environ w ∪ dotenv_file (external w)) w))
       = (Ok body, w2) →
       main sources w
       = bind (upload_post_to_webflow source body)
           (λ _, for_each rest process_source) w2
       ∧ HttpPost api_url (blog_post_data source body) (headers_of None)
         ∈ log (main sources w).2
       ∧ headers_of None !! "Authorization" = Some "Bearer None").
Proof.
  split.
  - intros x e' Hkey Hclient.
    assert (main sources w
            = (Raise x,
               set_external e'
                 (set_environ (environ w ∪ dotenv_file (external w)) w)))
      as Hmain.
    { unfold main, load_dotenv, os_getenv, bind at 1 2 3, modify, gets, call.
      cbn [external environ set_environ]. by rewrite Hkey, Hclient. }
    by rewrite Hmain.
  - intros source rest e' body w2 -> Htoken Hclient Hprod.
    by apply absent_token_is_posted_as_None with e'.
Qed.

End Publishing.

(** Three connectors, the model fails on the first chapter of the second:
    the loop ends with the exception of the second. *)
Lemma catalog_loop_stops_at_failure_witness :
  for_each ([foo] ++ bar :: [baz]) process_source
    (fresh (Scripted 0 ∅ (Some "Creating Bar") []))
  = (Raise (LibraryError "openai"),
     (process_source bar
        (for_each [foo] process_source
           (fresh (Scripted 0 ∅ (Some "Creating Bar") []))).2).2).
Proof.
  apply catalog_loop_stops_at_failure
    with (w1 := (for_each [foo] process_source
                   (fresh (Scripted 0 ∅ (Some "Creating Bar") []))).2);
    vm_compute; reflexivity.
Defined.

(** C2, refuted as stated: in that run the file of the third connector is
    never opened and its post is never sent, although the third connector
    on its own goes through. *)
Lemma third_connector_not_attempted :
  (main [foo; bar; baz]
     (fresh (Scripted 0 both_secrets (Some "Creating Bar") []))).1
  = Raise (LibraryError "openai")
  ∧ opened_files
      (log (main [foo; bar; baz]
              (fresh (Scripted 0 both_secrets (Some "Creating Bar") []))).2)
    = [filename_of foo]
  ∧ posted_slugs
      (log (main [foo; bar; baz]
              (fresh (Scripted 0 both_secrets (Some "Creating Bar") []))).2)
    = [Some (slug_of foo)]
  ∧ (main [foo; baz]
       (fresh (Scripted 0 both_secrets (Some "Creating Bar") []))).1
    = Ok tt
  ∧ opened_files
      (log (main [foo; baz]
              (fresh (Scripted 0 both_secrets (Some "Creating Bar") []))).2)
    = [filename_of foo; filename_of baz].
Proof. vm_compute. repeat split. Qed.

Lemma upload_classifies_by_status_witness :
  ∃ (line : string) (w' : world scripted),
    upload_post_to_webflow foo "post" (fresh (Scripted 0 ∅ None [])) = (Ok tt, w')
    ∧ printed (log w') = printed [] ++ [line]
    ∧ (line = upload_success_line foo ↔ 401 ∈ [200; 201; 202])
    ∧ (401 ∉ [200; 201; 202] →
       line = upload_failure_line foo (Response 401 "Unauthorized")
       ∧ occurs_in (str_of_int 401) line
       ∧ occurs_in "Unauthorized" line)
    ∧ ∀ (rest : list connector) (w0 : world scripted),
        produce_post foo w0 = (Ok "post", fresh (Scripted 0 ∅ None [])) →
        for_each (foo :: rest) process_source w0
        = for_each rest process_source w'.
Proof.
  apply (upload_classifies_by_status foo "post" (fresh (Scripted 0 ∅ None []))
           (Response 401 "Unauthorized") (Scripted 0 ∅ None [])).
  vm_compute; reflexivity.
Defined.

Lemma local_file_is_overwritten_witness :
  filename_of foo = "./blogs/" +:+ formatted foo +:+ ".md"
  ∧ (∀ other, filename_of other = filename_of foo →
              formatted other = formatted foo)
  ∧ opened_files
      (log (download_post foo "first" (fresh (Scripted 0 ∅ None []))).2)
    = opened_files [] ++ [filename_of foo]
  ∧ files (download_post foo "first" (fresh (Scripted 0 ∅ None []))).2
    = <[filename_of foo := "first"]> ∅
  ∧ files
      (download_post foo "second"
         (download_post foo "first" (fresh (Scripted 0 ∅ None []))).2).2
    = <[filename_of foo := "second"]> ∅
  ∧ files
      (download_post foo "second"
         (download_post foo "first" (fresh (Scripted 0 ∅ None []))).2).2
      !! filename_of foo = Some "second".
Proof.
  apply (local_file_is_overwritten foo "first" "second"
           (fresh (Scripted 0 ∅ None []))); vm_compute; reflexivity.
Defined.

(** C9, refuted as stated: with no CMS token in the environment the run
    raises nothing, generates the post with six requests to the model,
    writes it and posts it with the authorization [Bearer None]. *)
Lemma missing_cms_token_does_not_stop_the_run :
  (environ (main [foo]
              (fresh (Scripted 0 (<["OPENAI_KEY" := "sk-test"]> ∅) None []))).2
     !! "WEBFLOW_API_TOKEN" = None)
  ∧ (main [foo]
       (fresh (Scripted 0 (<["OPENAI_KEY" := "sk-test"]> ∅) None []))).1
    = Ok tt
  ∧ length (chat_requests
      (log (main [foo]
              (fresh (Scripted 0 (<["OPENAI_KEY" := "sk-test"]> ∅) None []))).2))
    = 6%nat
  ∧ opened_files
      (log (main [foo]
              (fresh (Scripted 0 (<["OPENAI_KEY" := "sk-test"]> ∅) None []))).2)
    = [filename_of foo]
  ∧ posted_authorizations
      (log (main [foo]
              (fresh (Scripted 0 (<["OPENAI_KEY" := "sk-test"]> ∅) None []))).2)
    = [Some "Bearer None"].
Proof. vm_compute. repeat split. Qed.

Lemma missing_secret_at_startup_witness :
  (main [foo] (fresh (Scripted 0 ∅ None []))
   = (Raise (LibraryError "openai"),
      set_external (Scripted 0 ∅ None [])
        (set_environ (∅ ∪ ∅) (fresh (Scripted 0 ∅ None []))))
   ∧ log (main [foo] (fresh (Scripted 0 ∅ None []))).2 = []
   ∧ files (main [foo] (fresh (Scripted 0 ∅ None []))).2 = ∅)
  ∧ HttpPost api_url
      (blog_post_data foo
         (default "" (files
            (main [foo]
               (fresh (Scripted 0 (<["OPENAI_KEY" := "sk-test"]> ∅) None []))).2
            !! filename_of foo)))
      (headers_of None)
    ∈ log (main [foo]
             (fresh (Scripted 0 (<["OPENAI_KEY" := "sk-test"]> ∅) None []))).2.
Proof.
  split.
  - refine (proj1 (missing_secret_at_startup [foo]
                     (fresh (Scripted 0 ∅ None []))) _ _ _ _);
      vm_compute; reflexivity.
  - eapply proj1, proj2.
    eapply (proj2 (missing_secret_at_startup [foo]
                     (fresh (Scripted 0 (<["OPENAI_KEY" := "sk-test"]> ∅)
                               None [])))
              foo [] (Scripted 0 (<["OPENAI_KEY" := "sk-test"]> ∅) None []));
      vm_compute; reflexivity.
Defined.


(** C6, refuted as stated: the slug of [source-foo] is not [foo]. *)
Lemma slug_of_source_foo_is_not_foo :
  fieldData (blog_post_data foo "post") !! "slug" = Some "foo-python"
  ∧ fieldData (blog_post_data foo "post") !! "slug" ≠ Some "foo".
Proof. split; [by vm_compute|]. vm_compute. discriminate. Qed.

(** C6, as the script has it.  The slug in the payload is the identifier
    without its prefix [source-], followed by [-python]: [source-foo] gives
    [foo-python].  (The script removes [source-] wherever it stands; the
    statement is for an identifier that carries it in front only.) *)
Theorem slug_strips_prefix_and_appends_python
  (source_connector : connector) (rest body : string) :
  formatted source_connector = "source-" +:+ rest →
  ¬ occurs_in "source-" rest →
  fieldData (blog_post_data source_connector body) !! "slug"
  = Some (rest +:+ "-python").
Proof.
  intros Hid Hrest. apply not_contains_iff in Hrest.
  unfold blog_post_data. cbn [fieldData].
  rewrite lookup_insert_ne, lookup_insert_eq by done.
  unfold slug_of, fstr. cbn [foldr].
  by rewrite Hid, replace_source_prefix, app_empty_r.
Qed.

Lemma slug_strips_prefix_and_appends_python_witness :
  fieldData (blog_post_data foo "post") !! "slug" = Some ("foo" +:+ "-python").
Proof.
  apply (slug_strips_prefix_and_appends_python foo "foo" "post").
  - reflexivity.
  - apply not_contains_iff. vm_compute. reflexivity.
Defined.

(** C7, refuted as stated: the answer [js```on] holds a fence, and what the
    cleanup leaves of it is the word [json], which is then in the snippet. *)
Lemma json_left_in_the_snippet :
  clean_config "js```on" = "json"
  ∧ occurs_in "json" (code_snippet "source-foo" (clean_config "js```on")).
Proof. split; [by vm_compute|]. apply contains_iff. by vm_compute. Qed.

(** C7, as the script has it.  Whatever the model answers, no fence is left
    in the cleaned configuration, and none is in the snippet unless the
    connector name brings one.  An answer of the form fence, [json], body,
    fence, with a body free of backticks and of [json], is cleaned to the
    body. *)
Theorem cleanup_leaves_no_fence (connector response body : string) :
  ¬ occurs_in fence (clean_config response)
  ∧ (¬ occurs_in fence connector →
     ¬ occurs_in fence (code_snippet connector (clean_config response)))
  ∧ (has_char BACKTICK body = false → ¬ occurs_in "json" body →
     clean_config (fence +:+ "json" +:+ body +:+ fence) = body).
Proof.
  split_and!.
  - apply clean_config_no_fence.
  - apply code_snippet_no_fence.
  - apply clean_config_fenced.
Qed.

Lemma cleanup_leaves_no_fence_witness :
  ¬ occurs_in fence (clean_config "```json{'key': 'value'}```")
  ∧ ¬ occurs_in fence
        (code_snippet "source-foo" (clean_config "```json{'key': 'value'}```"))
  ∧ clean_config (fence +:+ "json" +:+ "{'key': 'value'}" +:+ fence)
    = "{'key': 'value'}".
Proof.
  pose proof (cleanup_leaves_no_fence "source-foo"
                "```json{'key': 'value'}```" "{'key': 'value'}")
    as (H1 & H2 & H3).
  split_and!.
  - exact H1.
  - apply H2. apply not_contains_iff. vm_compute. reflexivity.
  - apply H3.
    + vm_compute. reflexivity.
    + apply not_contains_iff. vm_compute. reflexivity.
Defined.

Section Cleanup.

Context {ES : Type} `{!Externals ES}.

(** C10.  The cleanup cuts out every [json] of the answer, wherever it
    stands: an answer with an occurrence between [a] and [b] is cleaned
    to what the fence removal leaves of the cleaned [a] followed by the
    cleaned [b].  The result is at least four characters shorter than
    the answer and differs from the answer with only its fences removed.
    No exception is raised for it: [create_code_example] returns the
    snippet with the altered configuration. *)
Theorem cleanup_removes_every_json (a b connector config_spec : string)
  (w : world ES) (e1 e2 : ES) :
  get_source_config_spec connector (external w) = (Ok config_spec, e1) →
  chat_completions_create model_name
    [Message "system" (Some "You are a helpful assistant.");
     Message "user" (Some (config_prompt config_spec))] e1
  = (Ok (Some (a +:+ "json" +:+ b)), e2) →
  replace (a +:+ "json" +:+ b) "json" ""
  = replace a "json" "" +:+ replace b "json" ""
  ∧ clean_config (a +:+ "json" +:+ b)
    = replace (replace a "json" "" +:+ replace b "json" "") fence ""
  ∧ (String.length (clean_config (a +:+ "json" +:+ b)) + 4
     ≤ String.length (a +:+ "json" +:+ b))%nat
  ∧ clean_config (a +:+ "json" +:+ b)
    ≠ replace (a +:+ "json" +:+ b) fence ""
  ∧ (create_code_example connector w).1
    = Ok (code_snippet connector (clean_config (a +:+ "json" +:+ b))).
Proof.
  intros Hspec Hchat. split_and!.
  - apply replace_json_split.
  - unfold clean_config. by rewrite replace_json_split.
  - apply clean_config_json_length.
  - intros Heq. pose proof (clean_config_json_count a b) as Hlt.
    rewrite Heq in Hlt. lia.
  - rewrite create_code_example_run, Hspec. cbv zeta. by rewrite Hchat.
Qed.

End Cleanup.

(** A file name in the answer loses its extension. *)
Lemma cleanup_removes_every_json_witness :
  clean_config ("{'path': 'data." +:+ "json" +:+ "'}") = "{'path': 'data.'}"
  ∧ (create_code_example "source-foo"
       (fresh (Scripted 0 ∅ None ["{'path': 'data.json'}"]))).1
    = Ok (code_snippet "source-foo" "{'path': 'data.'}").
Proof.
  destruct (cleanup_removes_every_json "{'path': 'data." "'}" "source-foo"
              "{'type': 'object'}"
              (fresh (Scripted 0 ∅ None ["{'path': 'data.json'}"]))
              (Scripted 0 ∅ None ["{'path': 'data.json'}"])
              (Scripted 1 ∅ None ["{'path': 'data.json'}"]))
    as (_ & _ & _ & _ & H).
  - vm_compute; reflexivity.
  - vm_compute; reflexivity.
  - split; [by vm_compute|]. rewrite H. by vm_compute.
Defined.

(** ** What every step of the script respects *)

Section Keeps.

Context {ES : Type} `{!Externals ES}.
Context (R : world ES → world ES → Prop).
Context (allowed : event → Prop) (writable : string → Prop).
Context (HF : Frame R allowed writable).

Implicit Types (w : world ES) (source : connector).

Lemma keeps_ret {A} (a : A) : keeps R (ret a : M ES A).
Proof. intros w. apply (frame_refl _ _ _ HF). Qed.

Lemma keeps_raise {A} e : keeps R (raise e : M ES A).
Proof. intros w. apply (frame_refl _ _ _ HF). Qed.

Lemma keeps_gets {A} (f : world ES → A) : keeps R (gets f).
Proof. intros w. apply (frame_refl _ _ _ HF). Qed.

Lemma keeps_bind {A B} (m : M ES A) (k : A → M ES B) :
  keeps R m → (∀ a, keeps R (k a)) → keeps R (bind m k).
Proof.
  intros Hm Hk w. unfold bind. specialize (Hm w).
  destruct (m w) as [[a|e] w1]; [|done].
  eapply (frame_trans _ _ _ HF); [exact Hm|apply Hk].
Qed.

Lemma keeps_emit e : allowed e → keeps R (emit e : M ES unit).
Proof. intros He w. by apply (frame_log _ _ _ HF). Qed.

Lemma keeps_call {A} (f : ES → result A * ES) : keeps R (call f).
Proof.
  intros w. unfold call. destruct (f (external w)) as [r e'].
  apply (frame_external _ _ _ HF).
Qed.

Lemma keeps_getitem {V} (d : gmap string V) key :
  keeps R (getitem d key : M ES V).
Proof. unfold getitem. destruct (d !! key); [apply keeps_ret|apply keeps_raise]. Qed.

Lemma keeps_add x y : keeps R (add x y : M ES string).
Proof. destruct x, y; first [apply keeps_ret|apply keeps_raise]. Qed.

Lemma keeps_for_each {A} (xs : list A) (body : A → M ES unit) :
  (∀ x, x ∈ xs → keeps R (body x)) → keeps R (for_each xs body).
Proof.
  induction xs as [|x xs IH]; intros Hb; [apply keeps_ret|].
  apply keeps_bind; [apply Hb; left|intros _].
  apply IH. intros y Hy. apply Hb. by right.
Qed.

Lemma keeps_assemble chapters cta :
  keeps R (assemble chapters cta : M ES string).
Proof.
  unfold assemble.
  repeat (apply keeps_bind;
          [first [apply keeps_getitem|apply keeps_add]|intros ?]).
  apply keeps_add.
Qed.

Lemma model_event_request prompt history :
  model_event (ChatCreate model_name (chapter_messages prompt history)).
Proof.
  split; [done|]. split; [done|].
  unfold chapter_messages. by rewrite app_assoc, last_snoc.
Qed.

Section KeepsGeneration.

Hypothesis Hmodel : ∀ e, model_event e → allowed e.

Lemma keeps_create_code_example connector :
  keeps R (create_code_example connector).
Proof.
  unfold create_code_example.
  apply keeps_bind; [by apply keeps_emit, Hmodel|intros _].
  apply keeps_bind; [apply keeps_call|intros config_spec].
  apply keeps_bind; [by apply keeps_emit, Hmodel|intros _].
  apply keeps_bind; [apply keeps_call|intros content].
  apply keeps_bind; [|intros ?; apply keeps_ret].
  destruct content; [apply keeps_ret|apply keeps_raise].
Qed.

Lemma keeps_generate_and_record item : keeps R (generate_and_record item).
Proof.
  destruct item as [chapter prompt]. unfold generate_and_record.
  apply keeps_bind; [apply keeps_gets|intros history].
  apply keeps_bind.
  { unfold generate_blog_chapter.
    apply keeps_bind; [|intros _; apply keeps_call].
    apply keeps_emit, Hmodel, model_event_request. }
  intros text.
  apply keeps_bind; [intros w; apply (frame_chapters _ _ _ HF)|intros _].
  apply keeps_bind; [apply keeps_gets|intros chapters].
  apply keeps_bind; [apply keeps_getitem|intros stored].
  intros w; apply (frame_history _ _ _ HF).
Qed.

Lemma keeps_build_blog_post prompts cta : keeps R (build_blog_post prompts cta).
Proof.
  unfold build_blog_post.
  apply keeps_bind.
  { apply keeps_for_each. intros ? _. apply keeps_generate_and_record. }
  intros _. apply keeps_bind; [apply keeps_gets|intros ?].
  apply keeps_assemble.
Qed.

Lemma keeps_generate_post source : keeps R (generate_post source).
Proof.
  unfold generate_post.
  apply keeps_bind; [apply keeps_create_code_example|intros snippet].
  apply keeps_bind; [intros w; apply (frame_history _ _ _ HF)|intros _].
  apply keeps_bind; [intros w; apply (frame_chapters _ _ _ HF)|intros _].
  apply keeps_build_blog_post.
Qed.

End KeepsGeneration.

Section KeepsPublication.

Context (source : connector).
Hypothesis Hpublish : ∀ e, publish_event source e → allowed e.
Hypothesis Hfile : writable (filename_of source).

Lemma keeps_download_post body : keeps R (download_post source body).
Proof.
  unfold download_post.
  apply keeps_bind; [by apply keeps_emit, Hpublish|intros _].
  apply keeps_bind; [apply keeps_call|intros _].
  apply keeps_bind; [intros w; by apply (frame_files _ _ _ HF)|intros _].
  apply keeps_bind; [intros w; by apply (frame_files _ _ _ HF)|intros _].
  by apply keeps_emit, Hpublish.
Qed.

Lemma keeps_upload_post_to_webflow body :
  keeps R (upload_post_to_webflow source body).
Proof.
  unfold upload_post_to_webflow.
  apply keeps_bind; [apply keeps_gets|intros token].
  apply keeps_bind.
  { apply keeps_emit, Hpublish. split_and!; try done.
    all: unfold headers_of; rewrite lookup_insert_eq; by eexists. }
  intros _. apply keeps_bind; [apply keeps_call|intros r].
  destruct (bool_decide _); by apply keeps_emit, Hpublish.
Qed.

End KeepsPublication.

Lemma produce_post_generate_post source w :
  produce_post source w
  = bind (generate_post source)
      (λ blog_post, bind (download_post source blog_post)
                      (λ _, ret blog_post)) w.
Proof.
  unfold produce_post, generate_post, bind, modify.
  destruct (create_code_example _ w) as [[snippet|x] wa]; [|done].
  by destruct (build_blog_post _ _ _) as [[post|x] wb].
Qed.

Lemma keeps_process_source source :
  (∀ e, model_event e → allowed e) →
  (∀ e, publish_event source e → allowed e) →
  writable (filename_of source) →
  keeps R (process_source source).
Proof.
  intros Hm Hp Hw. unfold process_source.
  apply keeps_bind; [|intros body; by apply keeps_upload_post_to_webflow].
  intros w. rewrite produce_post_generate_post. revert w.
  apply keeps_bind; [by apply keeps_generate_post|intros body].
  apply keeps_bind; [by apply keeps_download_post|intros _; apply keeps_ret].
Qed.

Lemma keeps_main (sources : list connector) :
  (∀ e, model_event e → allowed e) →
  (∀ source e, source ∈ sources → publish_event source e → allowed e) →
  (∀ source, source ∈ sources → writable (filename_of source)) →
  keeps R (main sources).
Proof.
  intros Hm Hp Hw. unfold main.
  apply keeps_bind; [intros w; apply (frame_environ _ _ _ HF)|intros _].
  apply keeps_bind; [apply keeps_gets|intros key].
  apply keeps_bind; [apply keeps_call|intros _].
  apply keeps_for_each. intros source Hs.
  apply keeps_process_source; [done|intros e; by apply Hp|by apply Hw].
Qed.

End Keeps.


(** ** The log and the files of a whole run *)

Section WholeRun.

Context {ES : Type} `{!Externals ES}.

Implicit Types (w : world ES) (source : connector).

Lemma log_grows_frame (allowed : event → Prop) (writable : string → Prop) :
  Frame (log_grows_by (ES:=ES) allowed) allowed writable.
Proof.
  split.
  - intros w. exists []. by rewrite app_nil_r.
  - intros w1 w2 w3 (l1 & H1 & Hl1) (l2 & H2 & Hl2). exists (l1 ++ l2).
    rewrite H2, H1, app_assoc. split; [done|]. by apply Forall_app.
  - intros w e. exists []. by rewrite app_nil_r.
  - intros w v. exists []. by rewrite app_nil_r.
  - intros w h. exists []. by rewrite app_nil_r.
  - intros w c. exists []. by rewrite app_nil_r.
  - intros w e He. exists [e]. split; [done|]. by apply Forall_singleton.
  - intros w p v _. exists []. by rewrite app_nil_r.
Qed.

Lemma files_agree_frame (writable : string → Prop) :
  Frame (files_agree_off (ES:=ES) writable) (λ _, True) writable.
Proof.
  split; try (by intros; intros p Hp).
  - intros w1 w2 w3 H1 H2 p Hp. by rewrite H2, H1.
  - intros w p v Hw q Hq. cbn. apply lookup_insert_ne. by intros ->.
Qed.

(** X1.  Whatever happens in a run, and wherever it stops: every request
    the script sends to a model goes to the one model, opens with a system
    message and ends with a user prompt; every file it opens is the file of
    a connector of the catalog; every item it posts is a draft that is not
    archived, sent to the one collection under the slug of a connector of
    the catalog and with an authorization header; and the environment of
    the process is the one of the start completed by the variables of the
    [.env] file. *)
Theorem main_logs_only_script_events (sources : list connector) w :
  (∃ l, log (main sources w).2 = log w ++ l
        ∧ Forall (λ e, model_event e
                       ∨ ∃ source, source ∈ sources ∧ publish_event source e)
            l)
  ∧ environ (main sources w).2 = environ w ∪ dotenv_file (external w).
Proof.
  split.
  - apply (keeps_main _ _ (λ _, True) (log_grows_frame _ _)).
    + intros e He. by left.
    + intros source e Hs He. right. by exists source.
    + done.
  - unfold main. unfold bind at 1, load_dotenv, modify.
    match goal with |- environ (?m ?w0).2 = _ =>
      assert (steady m) as Hsteady
    end.
    { apply steady_bind; [apply steady_gets|intros key].
      apply steady_bind; [apply steady_call|intros _].
      apply steady_for_each, steady_process_source. }
    by destruct (Hsteady
                   (set_environ (environ w ∪ dotenv_file (external w)) w))
      as [-> _].
Qed.

(** X2.  A run changes no file but the files of the connectors of the
    catalog. *)
Theorem main_touches_only_catalog_files (sources : list connector) w
  (path : string) :
  (∀ source, source ∈ sources → path ≠ filename_of source) →
  files (main sources w).2 !! path = files w !! path.
Proof.
  intros Hpath.
  apply (keeps_main _ _ _
           (files_agree_frame
              (λ p, ∃ source, source ∈ sources ∧ p = filename_of source)));
    [done|done| |].
  - intros source Hs. by exists source.
  - intros (source & Hs & ->). by apply (Hpath source).
Qed.

Lemma model_events_publish_nothing (l : list event) :
  Forall model_event l →
  opened_files l = [] ∧ posted_bodies l = [] ∧ posted_slugs l = []
  ∧ printed l = [].
Proof.
  induction 1 as [|e l He _ IH]; [done|].
  destruct e; try done; cbn; apply IH.
Qed.

Lemma generate_post_quiet source w :
  files (generate_post source w).2 = files w
  ∧ opened_files (log (generate_post source w).2) = opened_files (log w)
  ∧ posted_bodies (log (generate_post source w).2) = posted_bodies (log w)
  ∧ posted_slugs (log (generate_post source w).2) = posted_slugs (log w)
  ∧ printed (log (generate_post source w).2) = printed (log w).
Proof.
  split.
  - apply map_eq. intros p.
    apply (keeps_generate_post _ _ _ (files_agree_frame (λ _, False)));
      [done|tauto].
  - destruct (keeps_generate_post _ _ (λ _, True)
                (log_grows_frame model_event _) ltac:(done) source w)
      as (l & -> & Hl).
    apply model_events_publish_nothing in Hl as (Ho & Hb & Hs & Hp).
    unfold opened_files, posted_bodies, posted_slugs, printed in *.
    by rewrite !omap_app, Ho, Hb, Hs, Hp, !app_nil_r.
Qed.

Lemma process_source_steps source w :
  process_source source w =
  match generate_post source w with
  | (Ok body, w1) =>
      match download_post source body w1 with
      | (Ok _, w2) => upload_post_to_webflow source body w2
      | (Raise x, w2) => (Raise x, w2)
      end
  | (Raise x, w1) => (Raise x, w1)
  end.
Proof.
  unfold process_source. unfold bind at 1.
  rewrite produce_post_generate_post. unfold bind, ret.
  destruct (generate_post source w) as [[body|x] w1]; [|done].
  by destruct (download_post source body w1) as [[[]|x] w2].
Qed.

(** X3.  The generation of a post publishes nothing, whatever its outcome:
    it opens no file, changes no file, posts nothing and prints nothing.
    When it raises, the processing of the connector ends with its
    exception, in the store of that moment. *)
Theorem generation_publishes_nothing source w :
  files (generate_post source w).2 = files w
  ∧ opened_files (log (generate_post source w).2) = opened_files (log w)
  ∧ posted_bodies (log (generate_post source w).2) = posted_bodies (log w)
  ∧ printed (log (generate_post source w).2) = printed (log w)
  ∧ ∀ x w1, generate_post source w = (Raise x, w1) →
            process_source source w = (Raise x, w1).
Proof.
  destruct (generate_post_quiet source w) as (Hf & Ho & Hb & _ & Hp).
  split_and!; [done..|].
  intros x w1 Hgen. by rewrite process_source_steps, Hgen.
Qed.

End WholeRun.


Section Connector.

Context {ES : Type} `{!Externals ES}.

Implicit Types (w : world ES) (source : connector).

Lemma blog_post_data_body source body :
  fieldData (blog_post_data source body) !! "post-body" = Some body.
Proof.
  unfold blog_post_data. cbn [fieldData].
  rewrite !lookup_insert_ne by done. apply lookup_insert_eq.
Qed.

Lemma blog_post_data_slug source body :
  fieldData (blog_post_data source body) !! "slug" = Some (slug_of source).
Proof.
  unfold blog_post_data. cbn [fieldData].
  rewrite lookup_insert_ne by done. apply lookup_insert_eq.
Qed.

Lemma posted_bodies_app l1 l2 :
  posted_bodies (l1 ++ l2) = posted_bodies l1 ++ posted_bodies l2.
Proof. apply omap_app. Qed.

Lemma posted_slugs_app l1 l2 :
  posted_slugs (l1 ++ l2) = posted_slugs l1 ++ posted_slugs l2.
Proof. apply omap_app. Qed.

Lemma opened_files_app l1 l2 :
  opened_files (l1 ++ l2) = opened_files l1 ++ opened_files l2.
Proof. apply omap_app. Qed.

(** X4.  Whatever happens while a connector is processed, at most one item
    is posted for it, and when one is posted its body is what the file of
    the connector holds: nothing reaches the CMS that has not been written
    to the local file first. *)
Theorem post_only_after_local_copy source w :
  posted_bodies (log (process_source source w).2) = posted_bodies (log w)
  ∨ ∃ body,
      posted_bodies (log (process_source source w).2)
      = posted_bodies (log w) ++ [Some body]
      ∧ files (process_source source w).2 !! filename_of source = Some body.
Proof.
  rewrite process_source_steps.
  destruct (generate_post_quiet source w) as (_ & _ & Hb & _).
  destruct (generate_post source w) as [[body|x] w1]; cbn [snd] in *;
    [|by left].
  rewrite download_post_run. cbv zeta.
  destruct (open_for_writing _ (external w1)) as [[[]|x] e1].
  - rewrite upload_post_to_webflow_run. cbv zeta. cbn [external environ].
    right. exists body.
    destruct (requests_post _ _ _ e1) as [[r|x] e2]; cbn [snd log files];
      (split; [|apply lookup_insert_eq]);
      rewrite !posted_bodies_app, Hb, <- app_assoc; by f_equal.
  - left. cbn [snd log]. by rewrite posted_bodies_app, Hb, app_nil_r.
Qed.

Lemma generate_post_six_requests source w body w1 :
  generate_post source w = (Ok body, w1) →
  length (chat_requests (log w1)) = (length (chat_requests (log w)) + 6)%nat.
Proof.
  unfold generate_post. unfold bind at 1. rewrite create_code_example_run.
  destruct (get_source_config_spec _ _) as [[spec|x] e1]; [|done]. cbv zeta.
  destruct (chat_completions_create _ _ e1) as [[[c|]|x] e2]; [|done..].
  unfold bind at 1 2, modify. rewrite build_blog_post_run.
  match goal with |- context [for_each ?ps generate_and_record ?w0] =>
    destruct (chapters_loop ps w0) as (texts & _ & _ & Hl & Hr);
    destruct (for_each ps generate_and_record w0) as [[[]|x] wb] eqn:Hloop
  end; [|done].
  cbv zeta in *. cbn [fst snd] in *. intros Hasm.
  pose proof (assemble_pure (blog_chapters wb) ctas wb) as Hw.
  rewrite Hasm in Hw. cbn [snd] in Hw. subst w1.
  rewrite Hl. cbn [log set_blog_chapters set_conversation_history
    set_external set_log conversation_history].
  rewrite chat_requests_app, !length_app, requests_of_length, Hr.
  cbn. lia.
Qed.

Lemma process_source_success source w w' :
  process_source source w = (Ok tt, w') →
  ∃ body,
    files w' = <[filename_of source := body]> (files w)
    ∧ opened_files (log w') = opened_files (log w) ++ [filename_of source]
    ∧ posted_slugs (log w') = posted_slugs (log w) ++ [Some (slug_of source)]
    ∧ posted_bodies (log w') = posted_bodies (log w) ++ [Some body]
    ∧ length (chat_requests (log w'))
      = (length (chat_requests (log w)) + 6)%nat.
Proof.
  rewrite process_source_steps.
  destruct (generate_post_quiet source w) as (Hf & Ho & Hb & Hs & _).
  destruct (generate_post source w) as [[body|x] w1] eqn:Hgen; [|done].
  apply generate_post_six_requests in Hgen. cbn [snd] in *.
  rewrite download_post_run. cbv zeta.
  destruct (open_for_writing _ (external w1)) as [[[]|x] e1]; [|done].
  rewrite upload_post_to_webflow_run. cbv zeta. cbn [external environ].
  destruct (requests_post _ _ _ e1) as [[r|x] e2]; [|done].
  intros [= <-]. exists body. cbn [files log].
  rewrite !opened_files_app, !posted_slugs_app, !posted_bodies_app,
    !chat_requests_app, !length_app, Hf, Ho, Hs, Hb, Hgen.
  change (opened_files [OpenW ?f; Print ?s]) with [f].
  change (opened_files [HttpPost ?u ?j ?h; Print ?s]) with (@nil string).
  change (posted_slugs [OpenW ?f; Print ?s]) with (@nil (option string)).
  change (posted_bodies [OpenW ?f; Print ?s]) with (@nil (option string)).
  change (posted_slugs [HttpPost ?u ?j ?h; Print ?s])
    with [fieldData j !! "slug"].
  change (posted_bodies [HttpPost ?u ?j ?h; Print ?s])
    with [fieldData j !! "post-body"].
  change (chat_requests [OpenW ?f; Print ?s]) with (@nil (list message)).
  change (chat_requests [HttpPost ?u ?j ?h; Print ?s])
    with (@nil (list message)).
  rewrite blog_post_data_body, blog_post_data_slug, !app_nil_r.
  cbn [length]. split_and!; try done; lia.
Qed.

(** X5.  When a connector is processed without an exception, its file holds
    the body that was posted, the file was opened once and one item was
    posted under the slug of the connector, and the model was asked six
    times: once for the configuration and once for each chapter. *)
Theorem processed_connector_is_published source w w' :
  process_source source w = (Ok tt, w') →
  ∃ body,
    files w' = <[filename_of source := body]> (files w)
    ∧ opened_files (log w') = opened_files (log w) ++ [filename_of source]
    ∧ posted_slugs (log w') = posted_slugs (log w) ++ [Some (slug_of source)]
    ∧ posted_bodies (log w') = posted_bodies (log w) ++ [Some body]
    ∧ length (chat_requests (log w'))
      = (length (chat_requests (log w)) + 6)%nat.
Proof. apply process_source_success. Qed.

(** X6.  When the loop over the catalog ends without an exception, the
    files were opened and the items posted in the order of the catalog,
    one of each per connector, every connector has its file, and the model
    was asked six times per connector. *)
Theorem catalog_published_in_order (sources : list connector) w w' :
  for_each sources process_source w = (Ok tt, w') →
  opened_files (log w') = opened_files (log w) ++ (filename_of <$> sources)
  ∧ posted_slugs (log w')
    = posted_slugs (log w) ++ ((λ source, Some (slug_of source)) <$> sources)
  ∧ length (chat_requests (log w'))
    = (length (chat_requests (log w)) + 6 * length sources)%nat
  ∧ ∀ source, source ∈ sources → is_Some (files w' !! filename_of source).
Proof.
  revert w. induction sources as [|source sources IH]; intros w Hrun.
  - injection Hrun as <-. cbn [fmap list_fmap length]. rewrite !app_nil_r.
    split_and!; [done|done|lia|].
    intros source Hs. by apply elem_of_nil in Hs.
  - rewrite for_each_cons in Hrun. unfold bind in Hrun.
    destruct (process_source source w) as [[[]|x] w1] eqn:Hone; [|done].
    apply process_source_success in Hone
      as (body & Hf & Ho & Hs & _ & Hc).
    assert (∀ (rest : list connector) (wa wb : world ES) p,
              for_each rest process_source wa = (Ok tt, wb) →
              is_Some (files wa !! p) → is_Some (files wb !! p)) as Hkeep.
    { clear. intros rest. induction rest as [|s rest IHr]; intros wa wb p Hr Hp.
      - by injection Hr as <-.
      - rewrite for_each_cons in Hr. unfold bind in Hr.
        destruct (process_source s wa) as [[[]|x] wc] eqn:Hs; [|done].
        apply process_source_success in Hs as (b & Hf & _).
        apply (IHr wc wb p Hr). rewrite Hf.
        destruct (decide (filename_of s = p)) as [->|Hne].
        + rewrite lookup_insert_eq. by eexists.
        + by rewrite lookup_insert_ne. }
    destruct (IH w1 Hrun) as (Ho' & Hs' & Hc' & Hfiles).
    rewrite Ho', Hs', Hc', Ho, Hs, Hc. cbn [fmap list_fmap length].
    rewrite <- !app_assoc. split_and!; [done|done|lia|].
    intros s [->|Hin]%elem_of_cons; [|by apply Hfiles].
    apply (Hkeep sources w1 w' _ Hrun). rewrite Hf, lookup_insert_eq.
    by eexists.
Qed.

End Connector.


Section Chapters.

Context {ES : Type} `{!Externals ES}.

Implicit Types (w : world ES) (source : connector).

(** X7.  The generation of a post does not see what an earlier connector
    left in the history or among the chapters: from two stores that differ
    in these two objects only, it sends the same requests, gives the same
    result and ends in stores that again differ in these two objects at
    most. *)
Theorem generation_ignores_earlier_history source (w1 w2 : world ES) :
  same_outside w1 w2 →
  (generate_post source w1).1 = (generate_post source w2).1
  ∧ same_outside (generate_post source w1).2 (generate_post source w2).2.
Proof.
  intros (He & Hv & Hf & Hl).
  destruct w1 as [e1 v1 f1 h1 c1 l1], w2 as [e2 v2 f2 h2 c2 l2].
  cbn in He, Hv, Hf, Hl. subst e2 v2 f2 l2.
  pose proof (create_code_example_run (formatted source)
                (World e1 v1 f1 h1 c1 l1)) as Ha.
  pose proof (create_code_example_run (formatted source)
                (World e1 v1 f1 h2 c2 l1)) as Hb.
  cbn [external log] in Ha, Hb. cbv zeta in Ha, Hb.
  unfold generate_post, bind, modify.
  destruct (get_source_config_spec _ e1) as [[spec|x] ea].
  - destruct (chat_completions_create _ _ ea) as [[[c|]|x] eb];
      rewrite Ha, Hb; by repeat split.
  - rewrite Ha, Hb. by repeat split.
Qed.

Lemma assemble_ok_inv chapters cta w post w' :
  assemble chapters cta w = (Ok post, w') →
  w' = w
  ∧ ∃ i c1 c2 c3 co d s,
      chapters !! "introduction" = Some (Some i)
      ∧ chapters !! "chapter_1" = Some (Some c1)
      ∧ chapters !! "chapter_2" = Some (Some c2)
      ∧ chapters !! "chapter_3" = Some (Some c3)
      ∧ chapters !! "conclusion" = Some (Some co)
      ∧ cta !! "docs_quickstarts_cta" = Some d
      ∧ cta !! "slack_newsletter_cta" = Some s
      ∧ post = i +:+ blank_line +:+ c1 +:+ blank_line +:+ c2 +:+ blank_line
               +:+ d +:+ blank_line +:+ c3 +:+ blank_line +:+ co
               +:+ blank_line +:+ s.
Proof.
  unfold assemble, bind, getitem.
  destruct (chapters !! "introduction") as [[i|]|]; [|done..].
  cbn [ret add].
  destruct (chapters !! "chapter_1") as [[c1|]|]; [|done..]. cbn [ret add].
  destruct (chapters !! "chapter_2") as [[c2|]|]; [|done..]. cbn [ret add].
  destruct (cta !! "docs_quickstarts_cta") as [d|]; [|done]. cbn [ret add].
  destruct (chapters !! "chapter_3") as [[c3|]|]; [|done..]. cbn [ret add].
  destruct (chapters !! "conclusion") as [[co|]|]; [|done..]. cbn [ret add].
  destruct (cta !! "slack_newsletter_cta") as [s|]; [|done]. cbn [ret add].
  intros [= <- <-]. split; [done|].
  exists i, c1, c2, c3, co, d, s. split_and!; try done.
  by rewrite !app_assoc_str.
Qed.

(** X8.  [build_blog_post] returns a post only when the loop over the
    prompts went through and all five chapters are stored as texts and
    both calls to action are present; the post is then their
    concatenation in the fixed order. *)
Theorem build_blog_post_returns_only_complete
  (order : list (string * string)) (cta : gmap string string)
  (w w1 : world ES) (post : string) :
  build_blog_post order cta w = (Ok post, w1) →
  for_each order generate_and_record w = (Ok tt, w1)
  ∧ ∃ i c1 c2 c3 co d s,
      blog_chapters w1 !! "introduction" = Some (Some i)
      ∧ blog_chapters w1 !! "chapter_1" = Some (Some c1)
      ∧ blog_chapters w1 !! "chapter_2" = Some (Some c2)
      ∧ blog_chapters w1 !! "chapter_3" = Some (Some c3)
      ∧ blog_chapters w1 !! "conclusion" = Some (Some co)
      ∧ cta !! "docs_quickstarts_cta" = Some d
      ∧ cta !! "slack_newsletter_cta" = Some s
      ∧ post = i +:+ blank_line +:+ c1 +:+ blank_line +:+ c2 +:+ blank_line
               +:+ d +:+ blank_line +:+ c3 +:+ blank_line +:+ co
               +:+ blank_line +:+ s.
Proof.
  rewrite build_blog_post_run.
  destruct (for_each order generate_and_record w) as [[[]|x] wa]; [|done].
  intros Hasm. apply assemble_ok_inv in Hasm as [-> H]. by split.
Qed.

(** X9.  An answer without content is not noticed while the chapters are
    generated: the loop goes through, and when all five chapters are
    stored and one of them is [None], the concatenation raises a
    [TypeError] and no post is returned. *)
Theorem none_answer_raises_type_error
  (order : list (string * string)) (cta : gmap string string)
  (w w1 : world ES) (i c1 c2 c3 co : option string) (d s : string) :
  for_each order generate_and_record w = (Ok tt, w1) →
  blog_chapters w1 !! "introduction" = Some i →
  blog_chapters w1 !! "chapter_1" = Some c1 →
  blog_chapters w1 !! "chapter_2" = Some c2 →
  blog_chapters w1 !! "chapter_3" = Some c3 →
  blog_chapters w1 !! "conclusion" = Some co →
  cta !! "docs_quickstarts_cta" = Some d →
  cta !! "slack_newsletter_cta" = Some s →
  None ∈ [i; c1; c2; c3; co] →
  build_blog_post order cta w = (Raise TypeError, w1).
Proof.
  intros Hloop Hi H1 H2 H3 Hco Hd Hs Hnone.
  rewrite build_blog_post_run, Hloop.
  unfold assemble, bind, getitem. rewrite Hi, H1, H2, H3, Hco, Hd, Hs.
  destruct i as [i|]; [|done]. cbn [ret add].
  destruct c1 as [c1|]; [|done]. cbn [ret add].
  destruct c2 as [c2|]; [|done]. cbn [ret add].
  destruct c3 as [c3|]; [|done]. cbn [ret add].
  destruct co as [co|]; [|done].
  exfalso.
  repeat (apply elem_of_cons in Hnone as [?|Hnone]; [done|]).
  by apply elem_of_nil in Hnone.
Qed.

(** X10.  When the loop over the prompts went through, no stored chapter is
    [None] and both calls to action are present, but one of the five
    chapters has not been stored, [build_blog_post] raises a [KeyError]
    that names a chapter that is missing. *)
Theorem missing_chapter_raises_key_error
  (order : list (string * string)) (cta : gmap string string)
  (w w1 : world ES) (d s : string) :
  for_each order generate_and_record w = (Ok tt, w1) →
  (∀ chapter, blog_chapters w1 !! chapter ≠ Some None) →
  cta !! "docs_quickstarts_cta" = Some d →
  cta !! "slack_newsletter_cta" = Some s →
  (∃ chapter,
     chapter ∈ ["introduction"; "chapter_1"; "chapter_2"; "chapter_3";
                "conclusion"]
     ∧ blog_chapters w1 !! chapter = None) →
  ∃ chapter,
    chapter ∈ ["introduction"; "chapter_1"; "chapter_2"; "chapter_3";
               "conclusion"]
    ∧ blog_chapters w1 !! chapter = None
    ∧ build_blog_post order cta w = (Raise (KeyError chapter), w1).
Proof.
  intros Hloop Hsome Hd Hs (missing & Hin & Hmissing).
  rewrite build_blog_post_run, Hloop.
  unfold assemble, bind, getitem. rewrite Hd, Hs.
  destruct (blog_chapters w1 !! "introduction") as [[i|]|] eqn:Hi;
    [|by destruct (Hsome "introduction")
     |exists "introduction"; split_and!; [by repeat constructor|done..]].
  cbn [ret add].
  destruct (blog_chapters w1 !! "chapter_1") as [[c1|]|] eqn:H1;
    [|by destruct (Hsome "chapter_1")
     |exists "chapter_1"; split_and!; [by repeat constructor|done..]].
  cbn [ret add].
  destruct (blog_chapters w1 !! "chapter_2") as [[c2|]|] eqn:H2;
    [|by destruct (Hsome "chapter_2")
     |exists "chapter_2"; split_and!; [by repeat constructor|done..]].
  cbn [ret add].
  destruct (blog_chapters w1 !! "chapter_3") as [[c3|]|] eqn:H3;
    [|by destruct (Hsome "chapter_3")
     |exists "chapter_3"; split_and!; [by repeat constructor|done..]].
  cbn [ret add].
  destruct (blog_chapters w1 !! "conclusion") as [[co|]|] eqn:Hco;
    [|by destruct (Hsome "conclusion")
     |exists "conclusion"; split_and!; [by repeat constructor|done..]].
  exfalso.
  repeat (apply elem_of_cons in Hin as [->|Hin]; [congruence|]).
  by apply elem_of_nil in Hin.
Qed.

(** X11.  With the prompts of the script and five answers that are texts,
    the post begins with the answer given last: it is the fifth answer,
    the first, the second, the documentation call to action, the third,
    the fourth and the newsletter call to action. *)
Theorem post_begins_with_the_last_answer source (snippet : string)
  (w w1 : world ES) (a1 a2 a3 a4 a5 : string) :
  for_each (chapter_prompts source snippet) generate_and_record w
  = (Ok tt, w1) →
  conversation_history w1
  = conversation_history w
      ++ (assistant_turn <$> [Some a1; Some a2; Some a3; Some a4; Some a5]) →
  ∃ d s,
    ctas !! "docs_quickstarts_cta" = Some d
    ∧ ctas !! "slack_newsletter_cta" = Some s
    ∧ build_blog_post (chapter_prompts source snippet) ctas w
      = (Ok (a5 +:+ blank_line +:+ a1 +:+ blank_line +:+ a2 +:+ blank_line
             +:+ d +:+ blank_line +:+ a3 +:+ blank_line +:+ a4
             +:+ blank_line +:+ s), w1).
Proof.
  intros Hloop Hhist.
  destruct (generated_texts_are_stored (chapter_prompts source snippet) w w1)
    as (texts & Hlen & Hh & Hstored); [|done|].
  { by apply (bool_decide_unpack (NoDup _)). }
  rewrite Hh in Hhist. apply app_inv_head in Hhist.
  assert (texts = [Some a1; Some a2; Some a3; Some a4; Some a5]) as ->.
  { revert Hhist. clear.
    generalize [Some a1; Some a2; Some a3; Some a4; Some a5].
    induction texts as [|t texts IH]; intros [|u us] H; try done.
    cbn in H. injection H as -> H. f_equal. by apply IH. }
  eexists _, _. split; [reflexivity|]. split; [reflexivity|].
  rewrite build_blog_post_run, Hloop.
  apply assemble_run; try reflexivity.
  - by apply (Hstored 4%nat _ _ _ eq_refl).
  - by apply (Hstored 0%nat _ _ _ eq_refl).
  - by apply (Hstored 1%nat _ _ _ eq_refl).
  - by apply (Hstored 2%nat _ _ _ eq_refl).
  - by apply (Hstored 3%nat _ _ _ eq_refl).
Qed.

(** X12.  When a request of the loop raises, it is the last request sent.
    The answers the model gave before it are in the history, in the order
    of the calls, and (the chapter names being distinct) each is stored
    under the name of its chapter.  For the request that raised and for
    the chapters behind it nothing is appended to the history, and the
    chapters keep the entries they had before the loop. *)
Theorem failed_request_keeps_earlier_answers
  (prompts : list (string * string)) (w w1 : world ES) (x : exn) :
  NoDup (prompts.*1) →
  for_each prompts generate_and_record w = (Raise x, w1) →
  ∃ texts : list (option string),
    (length texts < length prompts)%nat
    ∧ texts = model_answers (conversation_history w) prompts (external w)
    ∧ conversation_history w1
      = conversation_history w ++ (assistant_turn <$> texts)
    ∧ length (chat_requests (log w1))
      = (length (chat_requests (log w)) + length texts + 1)%nat
    ∧ (∀ k chapter prompt text,
         prompts !! k = Some (chapter, prompt) →
         texts !! k = Some text →
         blog_chapters w1 !! chapter = Some text)
    ∧ (∀ k chapter prompt,
         prompts !! k = Some (chapter, prompt) →
         (length texts ≤ k)%nat →
         blog_chapters w1 !! chapter = blog_chapters w !! chapter).
Proof.
  intros Hnd Hloop.
  destruct (chapters_loop_answers prompts w) as (Hh & Hc & Hl & Hr).
  rewrite Hloop in *. cbn [fst snd] in *.
  set (texts := model_answers _ _ _) in *.
  exists texts. split_and!; [done|done|done| | |].
  - rewrite Hl, length_app, requests_of_length. lia.
  - intros k chapter prompt text Hk Ht. rewrite Hc.
    by eapply record_texts_lookup.
  - intros k chapter prompt Hk Hlen. rewrite Hc.
    by eapply record_texts_lookup_later.
Qed.

(** X13.  When the registry does not deliver the connector, the processing
    of the connector ends with the exception of the registry after the one
    look at the registry: no request goes to the model, no file is opened,
    nothing is posted. *)
Theorem registry_failure_stops_before_any_request source w
  (x : exn) (e1 : ES) :
  get_source_config_spec (formatted source) (external w) = (Raise x, e1) →
  process_source source w
  = (Raise x,
     set_external e1 (set_log (log w ++ [GetSource (formatted source)]) w)).
Proof.
  intros Hreg.
  pose proof (create_code_example_run (formatted source) w) as Hrun.
  rewrite Hreg in Hrun.
  rewrite process_source_steps. unfold generate_post, bind.
  by rewrite Hrun.
Qed.

(** X14.  When the model answers the request for the configuration without
    content, the processing of the connector ends with an
    [AttributeError] after that one request: no chapter is asked for, no
    file is opened, nothing is posted. *)
Theorem empty_configuration_answer_stops_the_connector source w
  (config_spec : string) (e1 e2 : ES) :
  get_source_config_spec (formatted source) (external w)
  = (Ok config_spec, e1) →
  chat_completions_create model_name
    [Message "system" (Some "You are a helpful assistant.");
     Message "user" (Some (config_prompt config_spec))] e1
  = (Ok None, e2) →
  (process_source source w).1 = Raise AttributeError
  ∧ log (process_source source w).2
    = log w ++ [GetSource (formatted source);
                ChatCreate model_name
                  [Message "system" (Some "You are a helpful assistant.");
                   Message "user" (Some (config_prompt config_spec))]].
Proof.
  intros Hreg Hchat.
  pose proof (create_code_example_run (formatted source) w) as Hrun.
  rewrite Hreg in Hrun. cbv zeta in Hrun. rewrite Hchat in Hrun.
  rewrite process_source_steps. unfold generate_post, bind.
  rewrite Hrun. by cbn [fst snd log set_external set_log].
Qed.

End Chapters.

(** ** More on the cleanup and the slug *)

(** X15.  An answer that holds neither [json] nor a fence goes into the
    snippet as it is. *)
Theorem clean_answer_is_unchanged (response : string) :
  ¬ occurs_in "json" response → ¬ occurs_in fence response →
  clean_config response = response.
Proof.
  intros Hj Hf. apply not_contains_iff in Hj, Hf. unfold clean_config.
  rewrite (replace_absent response "json") by done.
  by apply replace_absent.
Qed.

(** X16.  The cleanup only deletes, and it deletes nothing but the letters
    j, s, o, n and backticks: no character occurs more often after it than
    before, and every other character occurs exactly as often. *)
Theorem cleanup_only_deletes (response : string) (c : ascii) :
  (count_char c (clean_config response) ≤ count_char c response)%nat
  ∧ (String.length (clean_config response) ≤ String.length response)%nat
  ∧ (c ∉ ["j"; "s"; "o"; "n"; BACKTICK]%char →
     count_char c (clean_config response) = count_char c response).
Proof.
  unfold clean_config. split_and!.
  - etrans; [apply count_char_removed|apply count_char_removed]; done.
  - etrans; [apply length_removed|apply length_removed]; done.
  - intros Hc.
    assert (has_char c "json" = false ∧ has_char c "```" = false) as [Hj Hf].
    { unfold BACKTICK in Hc. cbn [has_char].
      split; repeat case_bool_decide; try done;
        subst; exfalso; apply Hc; by repeat constructor. }
    rewrite (count_char_kept c _ "```") by done.
    by apply count_char_kept.
Qed.

(** X17.  The slug of an identifier in which [source-] does not occur is the
    whole identifier followed by [-python]. *)
Theorem slug_of_identifier_without_prefix (source_connector : connector)
  (body : string) :
  ¬ occurs_in "source-" (formatted source_connector) →
  fieldData (blog_post_data source_connector body) !! "slug"
  = Some (formatted source_connector +:+ "-python").
Proof.
  intros Hid. apply not_contains_iff in Hid.
  unfold blog_post_data. cbn [fieldData].
  rewrite lookup_insert_ne, lookup_insert_eq by done.
  unfold slug_of, fstr. cbn [foldr].
  by rewrite (replace_absent _ "source-"), app_empty_r.
Qed.


(** ** The properties above, on scripted runs *)

Lemma main_touches_only_catalog_files_witness :
  files (main [foo; bar] (fresh (Scripted 0 both_secrets None []))).2
    !! "./blogs/notes.md"
  = files (fresh (Scripted 0 both_secrets None [])) !! "./blogs/notes.md".
Proof.
  apply main_touches_only_catalog_files.
  intros source Hs.
  apply elem_of_cons in Hs as [->|Hs]; [by vm_compute|].
  apply elem_of_cons in Hs as [->|Hs]; [by vm_compute|].
  by apply elem_of_nil in Hs.
Defined.

Lemma generation_publishes_nothing_witness :
  process_source bar (fresh (Scripted 0 ∅ (Some "Creating Bar") []))
  = (Raise (LibraryError "openai"),
     (generate_post bar (fresh (Scripted 0 ∅ (Some "Creating Bar") []))).2).
Proof.
  apply (generation_publishes_nothing bar
           (fresh (Scripted 0 ∅ (Some "Creating Bar") []))).
  vm_compute; reflexivity.
Defined.

Lemma processed_connector_is_published_witness :
  ∃ body,
    files (process_source foo (fresh (Scripted 0 ∅ None []))).2
    = <[filename_of foo := body]> ∅
    ∧ opened_files (log (process_source foo (fresh (Scripted 0 ∅ None []))).2)
      = opened_files [] ++ [filename_of foo]
    ∧ posted_slugs (log (process_source foo (fresh (Scripted 0 ∅ None []))).2)
      = posted_slugs [] ++ [Some (slug_of foo)]
    ∧ posted_bodies (log (process_source foo (fresh (Scripted 0 ∅ None []))).2)
      = posted_bodies [] ++ [Some body]
    ∧ length (chat_requests
                (log (process_source foo (fresh (Scripted 0 ∅ None []))).2))
      = (length (chat_requests []) + 6)%nat.
Proof.
  apply (processed_connector_is_published foo (fresh (Scripted 0 ∅ None []))).
  vm_compute; reflexivity.
Defined.

Lemma catalog_published_in_order_witness :
  opened_files
    (log (for_each [baz; foo] process_source
            (fresh (Scripted 0 ∅ None []))).2)
  = opened_files [] ++ (filename_of <$> [baz; foo])
  ∧ posted_slugs
      (log (for_each [baz; foo] process_source
              (fresh (Scripted 0 ∅ None []))).2)
    = posted_slugs [] ++ ((λ source, Some (slug_of source)) <$> [baz; foo])
  ∧ length (chat_requests
              (log (for_each [baz; foo] process_source
                      (fresh (Scripted 0 ∅ None []))).2))
    = (length (chat_requests []) + 6 * length [baz; foo])%nat
  ∧ ∀ source, source ∈ [baz; foo] →
      is_Some (files (for_each [baz; foo] process_source
                        (fresh (Scripted 0 ∅ None []))).2
                 !! filename_of source).
Proof.
  apply (catalog_published_in_order [baz; foo] (fresh (Scripted 0 ∅ None []))).
  vm_compute; reflexivity.
Defined.

Lemma generation_ignores_earlier_history_witness :
  (generate_post foo (fresh (Scripted 0 ∅ None []))).1
  = (generate_post foo
       (set_conversation_history [assistant_turn (Some "an earlier chapter")]
          (set_blog_chapters (<["conclusion" := Some "an earlier end"]> ∅)
             (fresh (Scripted 0 ∅ None []))))).1
  ∧ same_outside
      (generate_post foo (fresh (Scripted 0 ∅ None []))).2
      (generate_post foo
         (set_conversation_history [assistant_turn (Some "an earlier chapter")]
            (set_blog_chapters (<["conclusion" := Some "an earlier end"]> ∅)
               (fresh (Scripted 0 ∅ None []))))).2.
Proof.
  apply generation_ignores_earlier_history. by repeat split.
Defined.

Lemma build_blog_post_returns_only_complete_witness :
  ∃ i c1 c2 c3 co d s,
    blog_chapters
      (build_blog_post (chapter_prompts foo "") ctas
         (fresh (Scripted 0 ∅ None []))).2 !! "introduction" = Some (Some i)
    ∧ blog_chapters
        (build_blog_post (chapter_prompts foo "") ctas
           (fresh (Scripted 0 ∅ None []))).2 !! "chapter_1" = Some (Some c1)
    ∧ blog_chapters
        (build_blog_post (chapter_prompts foo "") ctas
           (fresh (Scripted 0 ∅ None []))).2 !! "chapter_2" = Some (Some c2)
    ∧ blog_chapters
        (build_blog_post (chapter_prompts foo "") ctas
           (fresh (Scripted 0 ∅ None []))).2 !! "chapter_3" = Some (Some c3)
    ∧ blog_chapters
        (build_blog_post (chapter_prompts foo "") ctas
           (fresh (Scripted 0 ∅ None []))).2 !! "conclusion" = Some (Some co)
    ∧ ctas !! "docs_quickstarts_cta" = Some d
    ∧ ctas !! "slack_newsletter_cta" = Some s
    ∧ "reply-4" +:+ blank_line +:+ "reply-0" +:+ blank_line +:+ "reply-1"
      +:+ blank_line +:+ default "" (ctas !! "docs_quickstarts_cta")
      +:+ blank_line +:+ "reply-2" +:+ blank_line +:+ "reply-3"
      +:+ blank_line +:+ default "" (ctas !! "slack_newsletter_cta")
      = i +:+ blank_line +:+ c1 +:+ blank_line +:+ c2 +:+ blank_line
        +:+ d +:+ blank_line +:+ c3 +:+ blank_line +:+ co
        +:+ blank_line +:+ s.
Proof.
  eapply (build_blog_post_returns_only_complete (chapter_prompts foo "") ctas
            (fresh (Scripted 0 ∅ None []))).
  vm_compute; reflexivity.
Defined.

Lemma none_answer_raises_type_error_witness :
  build_blog_post (chapter_prompts foo "") ctas (fresh (Wordless false))
  = (Raise TypeError,
     (for_each (chapter_prompts foo "") generate_and_record
        (fresh (Wordless false))).2).
Proof.
  apply (none_answer_raises_type_error _ _ _ _ None None None None None
           (default "" (ctas !! "docs_quickstarts_cta"))
           (default "" (ctas !! "slack_newsletter_cta")));
    try (vm_compute; reflexivity).
  by left.
Defined.

Lemma missing_chapter_raises_key_error_witness :
  ∃ chapter,
    chapter ∈ ["introduction"; "chapter_1"; "chapter_2"; "chapter_3";
               "conclusion"]
    ∧ blog_chapters (fresh (Scripted 0 ∅ None [])) !! chapter = None
    ∧ build_blog_post [] ctas (fresh (Scripted 0 ∅ None []))
      = (Raise (KeyError chapter), fresh (Scripted 0 ∅ None [])).
Proof.
  apply (missing_chapter_raises_key_error [] ctas
           (fresh (Scripted 0 ∅ None [])) (fresh (Scripted 0 ∅ None []))
           (default "" (ctas !! "docs_quickstarts_cta"))
           (default "" (ctas !! "slack_newsletter_cta"))).
  - reflexivity.
  - intros chapter. cbn. by rewrite lookup_empty.
  - vm_compute; reflexivity.
  - vm_compute; reflexivity.
  - exists "introduction". split; [by left|reflexivity].
Defined.

Lemma post_begins_with_the_last_answer_witness :
  ∃ d s,
    ctas !! "docs_quickstarts_cta" = Some d
    ∧ ctas !! "slack_newsletter_cta" = Some s
    ∧ build_blog_post (chapter_prompts foo "") ctas
        (fresh (Scripted 0 ∅ None ["one"; "two"; "three"; "four"; "five"]))
      = (Ok ("five" +:+ blank_line +:+ "one" +:+ blank_line +:+ "two"
             +:+ blank_line +:+ d +:+ blank_line +:+ "three" +:+ blank_line
             +:+ "four" +:+ blank_line +:+ s),
         (for_each (chapter_prompts foo "") generate_and_record
            (fresh (Scripted 0 ∅ None
                      ["one"; "two"; "three"; "four"; "five"]))).2).
Proof.
  apply post_begins_with_the_last_answer; vm_compute; reflexivity.
Defined.

Lemma failed_request_keeps_earlier_answers_witness :
  ∃ texts : list (option string),
    (length texts < length (chapter_prompts foo ""))%nat
    ∧ texts = model_answers [] (chapter_prompts foo "")
                (Scripted 0 ∅ (Some "Why Using") [])
    ∧ conversation_history
        (for_each (chapter_prompts foo "") generate_and_record
           (fresh (Scripted 0 ∅ (Some "Why Using") []))).2
      = [] ++ (assistant_turn <$> texts)
    ∧ length (chat_requests
                (log (for_each (chapter_prompts foo "") generate_and_record
                        (fresh (Scripted 0 ∅ (Some "Why Using") []))).2))
      = (length (chat_requests []) + length texts + 1)%nat
    ∧ (∀ k chapter prompt text,
         chapter_prompts foo "" !! k = Some (chapter, prompt) →
         texts !! k = Some text →
         blog_chapters
           (for_each (chapter_prompts foo "") generate_and_record
              (fresh (Scripted 0 ∅ (Some "Why Using") []))).2 !! chapter
         = Some text)
    ∧ (∀ k chapter prompt,
         chapter_prompts foo "" !! k = Some (chapter, prompt) →
         (length texts ≤ k)%nat →
         blog_chapters
           (for_each (chapter_prompts foo "") generate_and_record
              (fresh (Scripted 0 ∅ (Some "Why Using") []))).2 !! chapter
         = (∅ : gmap string (option string)) !! chapter).
Proof.
  apply (failed_request_keeps_earlier_answers (chapter_prompts foo "")
           (fresh (Scripted 0 ∅ (Some "Why Using") [])) _
           (LibraryError "openai")).
  - by apply (bool_decide_unpack (NoDup _)).
  - vm_compute; reflexivity.
Defined.

Lemma registry_failure_stops_before_any_request_witness :
  process_source foo (fresh (Wordless true))
  = (Raise (LibraryError "airbyte"),
     set_external (Wordless true)
       (set_log ([] ++ [GetSource "source-foo"]) (fresh (Wordless true)))).
Proof.
  apply (registry_failure_stops_before_any_request foo
           (fresh (Wordless true))).
  reflexivity.
Defined.

Lemma empty_configuration_answer_stops_the_connector_witness :
  (process_source foo (fresh (Wordless false))).1 = Raise AttributeError
  ∧ log (process_source foo (fresh (Wordless false))).2
    = [] ++ [GetSource "source-foo";
             ChatCreate model_name
               [Message "system" (Some "You are a helpful assistant.");
                Message "user" (Some (config_prompt "{}"))]].
Proof.
  apply (empty_configuration_answer_stops_the_connector foo
           (fresh (Wordless false)) "{}" (Wordless false) (Wordless false));
    reflexivity.
Defined.

Lemma clean_answer_is_unchanged_witness :
  clean_config "{'api_key': 'secret'}" = "{'api_key': 'secret'}".
Proof.
  apply clean_answer_is_unchanged; apply not_contains_iff; by vm_compute.
Defined.

Lemma cleanup_only_deletes_witness :
  count_char "{" (clean_config "```json{'a': 1}```")
  = count_char "{" "```json{'a': 1}```".
Proof.
  apply (cleanup_only_deletes "```json{'a': 1}```" "{").
  intros Hin.
  repeat (apply elem_of_cons in Hin as [Heq|Hin]; [discriminate Heq|]).
  by apply elem_of_nil in Hin.
Defined.

Lemma slug_of_identifier_without_prefix_witness :
  fieldData (blog_post_data (Connector "Files" "file-reader") "post") !! "slug"
  = Some ("file-reader" +:+ "-python").
Proof.
  apply (slug_of_identifier_without_prefix (Connector "Files" "file-reader")).
  apply not_contains_iff. by vm_compute.
Defined.
